(** * TrueWork: the document similarity engine and its pairwise driver

    A shallow embedding of
      - [backend/app/plagiarism_checker/algorithms.py]  ([cosine_similarity_check]),
      - [backend/app/plagiarism_checker/core.py]        ([run_check]),
      - [backend/app/models.py]                         ([Submission], [PlagiarismResult]),
      - [backend/app/main.py]                           ([check_plagiarism]),
    together with the part of scikit-learn that [cosine_similarity_check]
    calls with default arguments: [TfidfVectorizer().fit_transform] and
    [sklearn.metrics.pairwise.cosine_similarity].

    Texts are Python [str] values; they are modelled as [string], every
    character being a code point below 256.  The character classes below
    are the ones CPython uses on that range.

    The numbers of the pipeline are numpy [float64] values.  The pipeline
    is written once, over the operations it uses ([Scalar]), and read at
    two instances: the real numbers (exact arithmetic, for the properties
    that hold of the formulas) and IEEE binary64 (for what rounding does
    to them). *)

From Stdlib Require Import PrimFloat Uint63.
From Stdlib Require Import Bool Arith Lia List String Ascii ZArith.
From Stdlib Require Import Sorted OrderedTypeEx Permutation DecimalString.
From Stdlib Require Import Reals Lra.
Import ListNotations.

Local Open Scope string_scope.
Local Open Scope list_scope.
Local Open Scope nat_scope.

(** ** Python [str] operations used by the engine *)

Module Text.

Definition code (c : ascii) : nat := nat_of_ascii c.

Definition between (lo hi n : nat) : bool := (lo <=? n) && (n <=? hi).

(** [str.isspace] on one character: what [str.strip()] removes. *)
Definition is_space (c : ascii) : bool :=
  let n := code c in
  between 9 13 n || between 28 32 n || (n =? 133) || (n =? 160).

(** [str.isalnum] on one character. *)
Definition is_alnum (c : ascii) : bool :=
  let n := code c in
  between 48 57 n || between 65 90 n || between 97 122 n
  || (n =? 170) || between 178 179 n || (n =? 181) || between 185 186 n
  || between 188 190 n || between 192 214 n || between 216 246 n
  || between 248 255 n.

(** The class [\w] of a Unicode pattern: alphanumeric or underscore. *)
Definition is_word (c : ascii) : bool := is_alnum c || (code c =? 95).

(** [str.lower] on one character. *)
Definition lower_char (c : ascii) : ascii :=
  let n := code c in
  if between 65 90 n || between 192 214 n || between 216 222 n
  then ascii_of_nat (n + 32) else c.

Fixpoint lower (s : string) : string :=
  match s with
  | EmptyString => EmptyString
  | String c s' => String (lower_char c) (lower s')
  end.

Fixpoint lstrip (s : string) : string :=
  match s with
  | EmptyString => EmptyString
  | String c s' => if is_space c then lstrip s' else s
  end.

Fixpoint rstrip (s : string) : string :=
  match s with
  | EmptyString => EmptyString
  | String c s' =>
      match rstrip s' with
      | EmptyString => if is_space c then EmptyString else String c EmptyString
      | r => String c r
      end
  end.

(** [s.strip()] *)
Definition strip (s : string) : string := rstrip (lstrip s).

(** Python truthiness: [not s] holds of the empty string only. *)
Definition is_empty (s : string) : bool :=
  match s with EmptyString => true | _ => false end.

(** [cls_at cls s k]: position [k] of [s] holds a character of class [cls]. *)
Definition cls_at (cls : ascii -> bool) (s : string) (k : nat) : bool :=
  match String.get k s with
  | Some c => cls c
  | None => false
  end.

End Text.

(** ** The tokenizer: [re.compile(r"(?u)\b\w\w+\b").findall] *)

Module Tokenizer.
Import Text.

Section Runs.
(** The character class the runs are made of. *)
Variable cls : ascii -> bool.

(** A finished run is a match when it has two characters or more. *)
Definition flush (cur : string) : list string :=
  if 2 <=? String.length cur then [cur] else [].

(** One left-to-right pass: [cur] is the run of [cls] characters read
    since the last character outside [cls]. *)
Fixpoint scan (cur : string) (s : string) : list string :=
  match s with
  | EmptyString => flush cur
  | String c s' =>
      if cls c then scan (String.append cur (String c EmptyString)) s'
      else flush cur ++ scan EmptyString s'
  end.

Definition runs2 (s : string) : list string := scan EmptyString s.

(** Positions: [is_run s a n] says that the [n] characters of [s] from
    position [a] form a maximal non-empty run of [cls] characters. *)
Definition is_run (s : string) (a n : nat) : Prop :=
  0 < n
  /\ (forall k, a <= k < a + n -> cls_at cls s k = true)
  /\ (a = 0 \/ cls_at cls s (a - 1) = false)
  /\ cls_at cls s (a + n) = false.

Definition emit (a n : nat) : list (nat * nat) :=
  if 2 <=? n then [(a, n)] else [].

(** The spans (start, length) of the matches, as [finditer] reports them:
    [i] is the current position, [run] the length of the run that ends
    just before it. *)
Fixpoint spans (i run : nat) (s : string) : list (nat * nat) :=
  match s with
  | EmptyString => emit (i - run) run
  | String c s' =>
      if cls c then spans (S i) (S run) s'
      else emit (i - run) run ++ spans (S i) 0 s'
  end.

(** What the scan knows of the text [t] when it stands at position [i]
    with a pending run of length [run]. *)
Definition pending_ok (t : string) (i run : nat) : Prop :=
  run <= i
  /\ (forall k, i - run <= k < i -> cls_at cls t k = true)
  /\ (i - run = 0 \/ cls_at cls t (i - run - 1) = false).

End Runs.

(** [findall] with the default [token_pattern]. *)
Definition findall (s : string) : list string := runs2 is_word s.

(** The default analyzer of [TfidfVectorizer]: lowercase, then the token
    pattern; no stop words, unigrams only. *)
Definition analyze (doc : string) : list string := findall (lower doc).

(** The tokenizer as the specification words it: the maximal runs of
    alphanumeric characters, two characters or more, of the lowercased
    text. *)
Definition spec_terms (doc : string) : list string := runs2 is_alnum (lower doc).

(** The slice [s[a : a + n]]. *)
Definition slice (s : string) (p : nat * nat) : string :=
  String.substring (fst p) (snd p) s.

End Tokenizer.

(** ** Exceptions *)

Module Exn.

Inductive exn : Type :=
| ValueError (msg : string)
| IndexError (msg : string).

(** A computation that returns or raises. *)
Definition result (A : Type) : Type := (exn + A)%type.

Definition ret {A} (x : A) : result A := inr x.
Definition raise {A} (e : exn) : result A := inl e.
Definition bind {A B} (c : result A) (k : A -> result B) : result B :=
  match c with
  | inl e => inl e
  | inr x => k x
  end.

End Exn.

(** ** The [float64] operations of the pipeline *)

Module Numeric.

Class Scalar (F : Type) : Type := {
  fzero : F;
  fone : F;
  fadd : F -> F -> F;
  fmul : F -> F -> F;
  fdiv : F -> F -> F;
  fsqrt : F -> F;
  (** [np.log] *)
  flog : F -> F;
  (** conversion of a count *)
  fnat : nat -> F;
  feqb : F -> F -> bool;
  fltb : F -> F -> bool;
  (** [np.finfo(np.float64).eps] *)
  feps : F
}.

(** Exact arithmetic. *)
#[export] Instance Scalar_R : Scalar R := {|
  fzero := 0%R;
  fone := 1%R;
  fadd := Rplus;
  fmul := Rmult;
  fdiv := Rdiv;
  fsqrt := R_sqrt.sqrt;
  flog := ln;
  fnat := INR;
  feqb := fun x y => if Req_dec_T x y then true else false;
  fltb := fun x y => if Rlt_dec x y then true else false;
  feps := (/ 2 ^ 52)%R
|}.

(** [np.log] on binary64, at the two arguments a group of two documents
    gives it: [3/3] for a term of both documents and [3/2] for a term of
    one; the second value is the binary64 number nearest to [ln 1.5]. *)
Definition log64 (x : float) : float :=
  if PrimFloat.eqb x 1 then 0%float
  else if PrimFloat.eqb x 1.5 then 0x1.9f323ecbf984cp-2%float
  else nan.

(** IEEE binary64, round to nearest even. *)
#[export] Instance Scalar_float64 : Scalar float := {|
  fzero := 0%float;
  fone := 1%float;
  fadd := PrimFloat.add;
  fmul := PrimFloat.mul;
  fdiv := PrimFloat.div;
  fsqrt := PrimFloat.sqrt;
  flog := log64;
  fnat := fun n => PrimFloat.of_uint63 (Uint63.of_Z (Z.of_nat n));
  feqb := PrimFloat.eqb;
  fltb := PrimFloat.ltb;
  feps := 0x1p-52%float
|}.

Section Vectors.
Context {F : Type} `{Scalar F}.

(** A sum accumulated from [0.0], left to right.  (numpy and BLAS fix no
    order of summation; over the reals the order does not matter.) *)
Definition fsum (l : list F) : F := fold_left fadd l fzero.

Definition sumsq (u : list F) : F := fsum (map (fun x => fmul x x) u).

Definition dot (u v : list F) : F :=
  fsum (map (fun p => fmul (fst p) (snd p)) (combine u v)).

End Vectors.

End Numeric.

(** ** scikit-learn: [TfidfVectorizer()] and [cosine_similarity] *)

Module Sklearn.
Import Exn Numeric Tokenizer.

(** The order of Python strings: by code point, a prefix first. *)
Definition term_lt (a b : string) : Prop := String.compare a b = Lt.

(** The vocabulary after [_sort_features]: the distinct terms in
    increasing order. *)
Fixpoint vocab_insert (t : string) (l : list string) : list string :=
  match l with
  | [] => [t]
  | u :: l' =>
      match String.compare t u with
      | Lt => t :: l
      | Eq => l
      | Gt => u :: vocab_insert t l'
      end
  end.

Definition sorted_features (toks : list (list string)) : list string :=
  fold_right vocab_insert [] (List.concat toks).

(** [CountVectorizer.fit_transform]: the sorted vocabulary and the matrix
    of term counts, one row per document and one column per term.  An
    empty vocabulary is an error. *)
Definition count_fit_transform (raw_documents : list string)
  : result (list string * list (list nat)) :=
  let toks := map analyze raw_documents in
  match sorted_features toks with
  | [] => raise (ValueError "empty vocabulary; perhaps the documents only contain stop words")
  | features =>
      ret (features, map (fun d => map (count_occ string_dec d) features) toks)
  end.

(** [_document_frequency]: the number of rows with a non-zero entry in
    column [j]. *)
Definition document_frequency (X : list (list nat)) (j : nat) : nat :=
  List.length (filter (fun row => negb (nth j row 0 =? 0)) X).

Section Pipeline.
Context {F : Type} `{Scalar F}.

(** [TfidfTransformer.fit] with [smooth_idf=True]:
    [idf = np.log((n_samples + 1) / (df + 1)) + 1]. *)
Definition idf_vector (X : list (list nat)) (n_features : nat) : list F :=
  let n_samples := List.length X in
  map (fun j =>
         fadd (flog (fdiv (fnat (n_samples + 1))
                          (fnat (document_frequency X j + 1)))) fone)
      (seq 0 n_features).

(** A row of counts times the idf vector, entry by entry. *)
Definition scale_row (idf : list F) (row : list nat) : list F :=
  map (fun p => fmul (fnat (fst p)) (snd p)) (combine row idf).

(** [normalize(X, norm="l2")] on a sparse row: a row whose sum of squares
    is zero is left as it is. *)
Definition normalize_sparse (row : list F) : list F :=
  let s := sumsq row in
  if feqb s fzero then row else map (fun x => fdiv x (fsqrt s)) row.

(** [TfidfTransformer.transform] with [norm="l2"]. *)
Definition tfidf_transform (X : list (list nat)) (n_features : nat)
  : list (list F) :=
  let idf := idf_vector X n_features in
  map (fun row => normalize_sparse (scale_row idf row)) X.

(** [TfidfVectorizer().fit_transform(raw_documents).toarray()] *)
Definition tfidf_fit_transform (raw_documents : list string)
  : result (list (list F)) :=
  bind (count_fit_transform raw_documents)
       (fun fx => ret (tfidf_transform (snd fx) (List.length (fst fx)))).

(** [_handle_zeros_in_scale]: a norm below [10 * eps] is replaced by 1. *)
Definition handle_zeros_in_scale (n : F) : F :=
  if fltb n (fmul (fnat 10) feps) then fone else n.

(** [normalize(X, copy=True)] on a dense row. *)
Definition normalize_dense (row : list F) : list F :=
  let n := handle_zeros_in_scale (fsqrt (sumsq row)) in
  map (fun x => fdiv x n) row.

(** [cosine_similarity(X)]: the matrix of dot products of the normalized
    rows.  The validation of the input array is left out: the rows the
    vectorizer returns are finite and of one length. *)
Definition cosine_similarity (X : list (list F)) : list (list F) :=
  let Xn := map normalize_dense X in
  map (fun u => map (fun v => dot u v) Xn) Xn.

(** [K[i, j]] *)
Definition getitem2 (K : list (list F)) (i j : nat) : result F :=
  match nth_error K i with
  | Some row =>
      match nth_error row j with
      | Some x => ret x
      | None => raise (IndexError "index out of bounds")
      end
  | None => raise (IndexError "index out of bounds")
  end.

End Pipeline.

End Sklearn.

(** ** The quantities of the specification

    Term frequency, document frequency, smoothed inverse document
    frequency and raw weight, as the specification words them, over the
    token sequences of the documents of a comparison group. *)

Module Spec.
Import Numeric Tokenizer.

(** [tf(term, doc)]: the number of occurrences of the term in the token
    sequence of the document. *)
Definition tf (t : string) (doc : string) : nat :=
  count_occ string_dec (analyze doc) t.

Definition contains (t : string) (doc : string) : bool :=
  existsb (String.eqb t) (analyze doc).

(** [df(term)]: the number of documents of the group that contain the
    term at least once. *)
Definition df (t : string) (group : list string) : nat :=
  List.length (filter (contains t) group).

(** [idf(term) = ln((1 + N) / (1 + df(term))) + 1] *)
Definition idf (N d : nat) : R := (ln ((1 + INR N) / (1 + INR d)) + 1)%R.

(** [w(term, doc) = tf(term, doc) * idf(term)] *)
Definition weight (group : list string) (doc : string) (t : string) : R :=
  (INR (tf t doc) * idf (List.length group) (df t group))%R.

(** The Euclidean norm. *)
Definition norm2 (v : list R) : R := R_sqrt.sqrt (sumsq v).

(** The raw weights of a document over a vocabulary. *)
Definition raw_weights (group : list string) (features : list string)
  (doc : string) : list R :=
  map (weight group doc) features.

(** [v] is the weight vector of [doc] in the group: the raw weights divided
    by their norm; of norm 1 when it has a non-zero entry; the zero vector
    when the raw weights are, and in particular when the document has no
    term. *)
Definition is_weight_vector (group : list string) (features : list string)
  (doc : string) (v : list R) : Prop :=
  let w := raw_weights group features doc in
  (norm2 w <> 0%R -> v = map (fun x => (x / norm2 w)%R) w)
  /\ (norm2 w = 0%R -> Forall (fun x => x = 0%R) v)
  /\ ((exists x, In x v /\ x <> 0%R) -> norm2 v = 1%R)
  /\ (analyze doc = [] -> Forall (fun x => x = 0%R) v).

End Spec.

(** ** [plagiarism_checker/algorithms.py] *)

Module Algorithms.
Import Exn Numeric Text Sklearn.

Section WithScalar.
Context {F : Type} `{Scalar F}.

(** The body of the [try] block after the empty-text guard. *)
Definition similarity_of (text1 text2 : string) : result F :=
  bind (tfidf_fit_transform [text1; text2])
       (fun vectors => getitem2 (cosine_similarity vectors) 0 1).

Definition cosine_similarity_check (text1 text2 : string) : F :=
  let text1 := strip text1 in
  let text2 := strip text2 in
  if is_empty text1 || is_empty text2 then fzero
  else
    match similarity_of text1 text2 with
    | inr similarity => similarity
    | inl _ => fzero
    end.

End WithScalar.

End Algorithms.

(** ** [plagiarism_checker/core.py] *)

Module Core.
Import Exn Numeric Algorithms.

Definition default_algorithm : string := "cosine_similarity".

Definition run_check {F : Type} `{Scalar F}
  (text1 text2 : string) (algorithm : string) : result F :=
  if String.eqb algorithm "cosine_similarity"
  then ret (cosine_similarity_check text1 text2)
  else raise (ValueError "Unsupported algorithm").

End Core.

(** ** [models.py] *)

Module Models.

Record Submission : Type := {
  id : Z;
  student_id : string;
  filename : string;
  text_content : string
}.

(** The primary key of a result row is given by the database when the row
    is flushed; the code never reads it. *)
Record PlagiarismResult (F : Type) : Type := {
  submission1_id : Z;
  submission2_id : Z;
  similarity_score : F
}.

Arguments submission1_id {F} _.
Arguments submission2_id {F} _.
Arguments similarity_score {F} _.

End Models.

(** ** [main.py]: the [/check] handler *)

Module Main.
Import Exn Numeric Models Core.

Section WithScalar.
Context {F : Type} `{Scalar F}.

Record Database : Type := {
  submissions : list Submission;
  plagiarism_results : list (PlagiarismResult F)
}.

(** A database session: the committed tables, the tables as the open
    transaction sees them, and the objects added but not yet flushed. *)
Record Session : Type := {
  committed : Database;
  view : Database;
  pending : list (PlagiarismResult F)
}.

(** [SessionLocal()] *)
Definition open_session (d : Database) : Session :=
  {| committed := d; view := d; pending := [] |}.

(** A handler step: it returns or raises, and leaves a session. *)
Definition M (A : Type) : Type := Session -> result A * Session.

Definition mret {A} (x : A) : M A := fun s => (inr x, s).

Definition mbind {A B} (c : M A) (k : A -> M B) : M B :=
  fun s =>
    match c s with
    | (inr x, s') => k x s'
    | (inl e, s') => (inl e, s')
    end.

Definition lift {A} (r : result A) : M A := fun s => (r, s).

(** [try: c  except Exception as e: handler e] *)
Definition try_except {A} (c : M A) (handler : exn -> M A) : M A :=
  fun s =>
    match c s with
    | (inl e, s') => handler e s'
    | r => r
    end.

Fixpoint for_each {A} (l : list A) (body : A -> M unit) : M unit :=
  match l with
  | [] => mret tt
  | x :: l' => mbind (body x) (fun _ => for_each l' body)
  end.

(** [range(a, b)] *)
Definition range (a b : nat) : list nat := seq a (b - a).

(** [l[i]] *)
Definition getitem {A} (l : list A) (i : nat) : M A :=
  match nth_error l i with
  | Some x => mret x
  | None => lift (raise (IndexError "list index out of range"))
  end.

(** [db.query(models.Submission).all()] *)
Definition query_submissions : M (list Submission) :=
  fun s => (inr (submissions (view s)), s).

(** [db.query(models.PlagiarismResult).delete()] *)
Definition delete_results : M unit :=
  fun s =>
    (inr tt,
     {| committed := committed s;
        view := {| submissions := submissions (view s);
                   plagiarism_results := [] |};
        pending := pending s |}).

(** [db.add(result)] *)
Definition add (r : PlagiarismResult F) : M unit :=
  fun s =>
    (inr tt,
     {| committed := committed s; view := view s;
        pending := pending s ++ [r] |}).

(** [db.commit()]: the pending rows are inserted in the order they were
    added, and the transaction becomes the committed state. *)
Definition commit : M unit :=
  fun s =>
    let v := {| submissions := submissions (view s);
                plagiarism_results := plagiarism_results (view s) ++ pending s |} in
    (inr tt, {| committed := v; view := v; pending := [] |}).

(** The body of the inner loop of [check_plagiarism]. *)
Definition compare_pair (subs : list Submission) (i j : nat) : M unit :=
  mbind (getitem subs i) (fun sub1 =>
  mbind (getitem subs j) (fun sub2 =>
  try_except
    (mbind (lift (run_check (text_content sub1) (text_content sub2)
                            default_algorithm))
       (fun score =>
          add {| submission1_id := id sub1;
                 submission2_id := id sub2;
                 similarity_score := score |}))
    (fun _ => mret tt))).

Definition check_plagiarism : M unit :=
  mbind query_submissions (fun subs =>
  mbind delete_results (fun _ =>
  mbind (for_each (range 0 (List.length subs)) (fun i =>
           for_each (range (i + 1) (List.length subs)) (fun j =>
             compare_pair subs i j)))
        (fun _ => commit))).

(** One [POST /check] request against the database [d]: a fresh session,
    the handler, and the session closed; what was not committed is lost. *)
Definition post_check (d : Database) : result unit * Database :=
  let '(r, s) := check_plagiarism (open_session d) in
  (r, committed s).

(** The row stored for a pair of submissions. *)
Definition result_of (sub1 sub2 : Submission) : PlagiarismResult F :=
  {| submission1_id := id sub1;
     submission2_id := id sub2;
     similarity_score :=
       Algorithms.cosine_similarity_check (text_content sub1) (text_content sub2) |}.

(** [r] is the row of the pair of positions [p] of the list [subs]. *)
Definition is_result_of (subs : list Submission) (p : nat * nat)
  (r : PlagiarismResult F) : Prop :=
  exists sub1 sub2,
    nth_error subs (fst p) = Some sub1
    /\ nth_error subs (snd p) = Some sub2
    /\ r = result_of sub1 sub2.

(** The session [s] after [rows] were added to it. *)
Definition with_added (s : Session) (rows : list (PlagiarismResult F)) : Session :=
  {| committed := committed s; view := view s; pending := pending s ++ rows |}.

(** The index pairs the two loops visit, in order. *)
Definition index_pairs (n : nat) : list (nat * nat) :=
  flat_map (fun i => map (fun j => (i, j)) (range (i + 1) n)) (range 0 n).

End WithScalar.

Arguments Database F : clear implicits.
Arguments Session F : clear implicits.

End Main.

(** ** Sample data *)

Module Samples.
Import Models Main.

Definition sub_a : Submission :=
  {| id := 1; student_id := "Student_A"; filename := "test_1.txt";
     text_content := "a" |}.

Definition sub_b : Submission :=
  {| id := 2; student_id := "Student_B"; filename := "test_2.txt";
     text_content := "b" |}.

Definition sub_c : Submission :=
  {| id := 3; student_id := "Student_C"; filename := "test_3.txt";
     text_content := "machine learning" |}.

(** Three submissions and one row left by an earlier run. *)
Definition three_submissions : Database R :=
  {| submissions := [sub_a; sub_b; sub_c];
     plagiarism_results :=
       [{| submission1_id := 7; submission2_id := 9;
           similarity_score := 1%R |}] |}.

End Samples.

(** ** [os.path] on POSIX paths *)

Module PosixPath.

(** [s.rfind(c)], scanning from position [i] with [last] the last match so
    far; [-1] when there is none. *)
Fixpoint rfind_from (c : ascii) (s : string) (i last : Z) : Z :=
  match s with
  | EmptyString => last
  | String d s' => rfind_from c s' (i + 1) (if Ascii.eqb d c then i else last)
  end.

Definition rfind (c : ascii) (s : string) : Z := rfind_from c s 0 (-1).

(** [s[i:]] and [s[:i]] for an index [0 <= i]. *)
Definition slice_from (i : Z) (s : string) : string :=
  String.substring (Z.to_nat i) (String.length s - Z.to_nat i) s.

Definition slice_to (i : Z) (s : string) : string :=
  String.substring 0 (Z.to_nat i) s.

(** [os.path.basename]: what follows the last slash. *)
Definition basename (p : string) : string := slice_from (rfind "/" p + 1) p.

Definition startswith (c : ascii) (s : string) : bool :=
  match s with
  | String d _ => Ascii.eqb d c
  | EmptyString => false
  end.

Fixpoint endswith (c : ascii) (s : string) : bool :=
  match s with
  | EmptyString => false
  | String d EmptyString => Ascii.eqb d c
  | String _ s' => endswith c s'
  end.

(** [os.path.join(a, b)] *)
Definition join (a b : string) : string :=
  if startswith "/" b then b
  else if Text.is_empty a || endswith "/" a then String.append a b
  else String.append a (String "/" b).

(** The position [k] of [p] holds a character other than the dot. *)
Definition not_dot_at (p : string) (k : nat) : bool :=
  match String.get k p with
  | Some c => negb (Ascii.eqb c ".")
  | None => true
  end.

(** [os.path.splitext]: the extension starts at the last dot, when that
    dot comes after the last slash and after a character of the file name
    that is not a dot. *)
Definition splitext (p : string) : string * string :=
  let sepIndex := rfind "/" p in
  let dotIndex := rfind "." p in
  if (sepIndex <? dotIndex)%Z
     && existsb (not_dot_at p)
          (seq (Z.to_nat (sepIndex + 1))
               (Z.to_nat dotIndex - Z.to_nat (sepIndex + 1)))
  then (slice_to dotIndex p, slice_from dotIndex p)
  else (p, EmptyString).

End PosixPath.

(** ** Exceptions and files of the web layer *)

Module Web.

Inductive pyexc : Type :=
| ImportError (msg : string)
| HTTPException (status_code : nat) (detail : string)
| OtherError (name msg : string).

(** A call that returns or raises. *)
Definition outcome (A : Type) : Type := (pyexc + A)%type.

(** What the handlers ask of the file system and of the document readers.
    A path is a [str], the content of a file a byte string.  A write may
    fail and still change the disk. *)
Class FileSystem (FS : Type) : Type := {
  (** [os.path.exists(path)] *)
  path_exists : string -> FS -> bool;
  (** [os.makedirs(path)] *)
  makedirs : string -> FS -> outcome unit * FS;
  (** [open(path, "wb").write(content)] *)
  write_binary : string -> string -> FS -> outcome unit * FS;
  (** [open(path, "r", encoding="utf-8").read()] *)
  read_utf8 : string -> FS -> outcome string;
  (** [[page.get_text() for page in fitz.open(path)]] *)
  pdf_page_texts : string -> FS -> outcome (list string);
  (** [[para.text for para in Document(path).paragraphs]], with
      [ImportError] when the [docx] package is not installed *)
  docx_paragraph_texts : string -> FS -> outcome (list string)
}.

(** The primary key the database gives a new row of [submissions], from
    the rows the table holds. *)
Class PrimaryKey : Type := {
  next_id : list Models.Submission -> Z
}.

(** [UploadFile] *)
Record UploadFile : Type := {
  upload_filename : string;
  content_type : string;
  body : string
}.

End Web.

(** ** [utils/pdf_parser.py] *)

Module PdfParser.
Import Web PosixPath.

Section WithFiles.
Context {FS : Type} `{FileSystem FS}.

Definition extract_text_from_pdf (file_path : string) (fs : FS) : outcome string :=
  match pdf_page_texts file_path fs with
  | inr pages => inr (fold_left String.append pages EmptyString)
  | inl e => inl e
  end.

Definition extract_text_from_txt (file_path : string) (fs : FS) : outcome string :=
  read_utf8 file_path fs.

Definition newline : string := String (ascii_of_nat 10) EmptyString.

Definition extract_text_from_docx (file_path : string) (fs : FS) : outcome string :=
  match docx_paragraph_texts file_path fs with
  | inr paragraphs =>
      inr (fold_left (fun text para => String.append text (String.append para newline))
                     paragraphs EmptyString)
  | inl (ImportError _) => inr EmptyString
  | inl e => inl e
  end.

Definition extract_text (file_path : string) (fs : FS) : outcome string :=
  let file_ext := Text.lower (snd (splitext file_path)) in
  if String.eqb file_ext ".pdf" then extract_text_from_pdf file_path fs
  else if String.eqb file_ext ".txt" then extract_text_from_txt file_path fs
  else if String.eqb file_ext ".docx" then extract_text_from_docx file_path fs
  else
    match extract_text_from_txt file_path fs with
    | inr text => inr text
    | inl _ => inr EmptyString
    end.

End WithFiles.

End PdfParser.

(** ** [main.py]: the other handlers *)

Module Endpoints.
Import Exn Numeric Models Main.

Section WithScalar.
Context {F : Type} `{Scalar F}.

(** One request with the handler [h] against the database [d]: a fresh
    session, the handler, and the session closed. *)
Definition serve {A} (h : M (F:=F) A) (d : Database F) : result A * Database F :=
  let '(r, s) := h (open_session d) in
  (r, committed s).

(** [db.query(models.Submission).delete()] *)
Definition delete_submissions : M (F:=F) unit :=
  fun s =>
    (inr tt,
     {| committed := committed s;
        view := {| submissions := [];
                   plagiarism_results := plagiarism_results (view s) |};
        pending := pending s |}).

(** [db.query(models.PlagiarismResult).all()] *)
Definition query_results : M (F:=F) (list (PlagiarismResult F)) :=
  fun s => (inr (plagiarism_results (view s)), s).

(** [GET /submissions] *)
Definition get_submissions : M (F:=F) (list Submission) := query_submissions.

(** [GET /results] *)
Definition get_results : M (F:=F) (list (PlagiarismResult F)) := query_results.

(** [POST /clear] *)
Definition clear_data : M (F:=F) unit :=
  mbind delete_results (fun _ =>
  mbind delete_submissions (fun _ =>
  commit)).

End WithScalar.

End Endpoints.

(** ** [main.py]: the [/upload] handler *)

Module Upload.
Import Web PosixPath PdfParser Text Models Main.

Section WithWorld.
Context {F : Type} {FS : Type} `{FileSystem FS} `{PrimaryKey}.

(** The state a request works on: its database session and the disk. *)
Record World : Type := {
  session : Session F;
  disk : FS
}.

Definition W (A : Type) : Type := World -> outcome A * World.

Definition wret {A} (x : A) : W A := fun w => (inr x, w).

Definition wraise {A} (e : pyexc) : W A := fun w => (inl e, w).

Definition wbind {A B} (c : W A) (k : A -> W B) : W B :=
  fun w =>
    match c w with
    | (inr x, w') => k x w'
    | (inl e, w') => (inl e, w')
    end.

(** [try: c  except Exception as e: handler e] *)
Definition wtry {A} (c : W A) (handler : pyexc -> W A) : W A :=
  fun w =>
    match c w with
    | (inl e, w') => handler e w'
    | r => r
    end.

(** An operation on the disk. *)
Definition on_disk (op : FS -> outcome unit * FS) : W unit :=
  fun w =>
    let '(r, fs) := op (disk w) in
    (r, {| session := session w; disk := fs |}).

(** A reader of the disk. *)
Definition from_disk {A} (rd : FS -> outcome A) : W A :=
  fun w => (rd (disk w), w).

(** [str(n)] for a length or a count. *)
Definition str_of_nat (n : nat) : string :=
  DecimalString.NilEmpty.string_of_uint (Nat.to_uint n).

Definition mismatch_detail (n_files n_ids : nat) : string :=
  String.append "The number of files ("
    (String.append (str_of_nat n_files)
       (String.append ") and student IDs ("
          (String.append (str_of_nat n_ids) ") must be the same."))).

Definition upload_message (saved_count : nat) : string :=
  String.append (str_of_nat saved_count) " files uploaded successfully.".

Definition uploads_dir : string := "uploads".

(** [if not os.path.exists(uploads_dir): os.makedirs(uploads_dir)] *)
Definition ensure_uploads_dir : W unit :=
  fun w =>
    if path_exists uploads_dir (disk w) then (inr tt, w)
    else on_disk (makedirs uploads_dir) w.

(** [db.add(submission); db.flush()]: the row gets its key and joins the
    table as the transaction sees it.  The flush is taken to succeed. *)
Definition add_and_flush (student_id filename text : string) : W Submission :=
  fun w =>
    let s := session w in
    let submission :=
      {| id := next_id (submissions (view s));
         Models.student_id := student_id;
         Models.filename := filename;
         text_content := text |} in
    (inr submission,
     {| session :=
          {| committed := committed s;
             view := {| submissions := submissions (view s) ++ [submission];
                        plagiarism_results := plagiarism_results (view s) |};
             pending := pending s |};
        disk := disk w |}).

(** [db.commit()] *)
Definition wcommit : W unit :=
  fun w => (inr tt, {| session := snd (commit (session w)); disk := disk w |}).

(** The body of the loop over [zip(files, student_ids)]. *)
Definition upload_one (file : UploadFile) (student_id : string)
  (saved_count : nat) : W nat :=
  let sanitized_filename := basename (upload_filename file) in
  let file_location := join uploads_dir sanitized_filename in
  wbind (on_disk (write_binary file_location (body file))) (fun _ =>
  wtry
    (wbind (from_disk (extract_text file_location)) (fun text =>
       if negb (is_empty (strip text)) then
         wbind (add_and_flush student_id sanitized_filename text) (fun _ =>
         wret (saved_count + 1))
       else wret saved_count))
    (fun _ => wret saved_count)).

Fixpoint upload_loop (pairs : list (UploadFile * string)) (saved_count : nat)
  : W nat :=
  match pairs with
  | [] => wret saved_count
  | (file, student_id) :: rest =>
      wbind (upload_one file student_id saved_count) (upload_loop rest)
  end.

Definition upload_pdfs (files : list UploadFile) (student_ids : list string)
  : W string :=
  if negb (List.length files =? List.length student_ids) then
    wraise (HTTPException 400
              (mismatch_detail (List.length files) (List.length student_ids)))
  else
    wbind ensure_uploads_dir (fun _ =>
    wbind (upload_loop (combine files student_ids) 0) (fun saved_count =>
    wbind wcommit (fun _ =>
    wret (upload_message saved_count)))).

(** One [POST /upload] request against the database [d] and the disk
    [fs]: what was not committed is lost, what was written stays. *)
Definition post_upload (d : Database F) (fs : FS)
  (files : list UploadFile) (student_ids : list string)
  : outcome string * Database F * FS :=
  let '(r, w) :=
    upload_pdfs files student_ids
      {| session := open_session d; disk := fs |} in
  (r, committed (session w), disk w).

(** [sub] is the row stored for the upload [p] when the table holds
    [rows]. *)
Definition is_row_of (rows : list Submission) (p : UploadFile * string)
  (sub : Submission) : Prop :=
  id sub = next_id rows
  /\ student_id sub = snd p
  /\ filename sub = basename (upload_filename (fst p))
  /\ is_empty (strip (text_content sub)) = false.

(** [added] are the rows stored for some of the uploads [pairs], in the
    order of the uploads, when the table holds [rows] at the start. *)
Inductive stored_rows
  : list Submission -> list (UploadFile * string) -> list Submission -> Prop :=
| stored_nil rows : stored_rows rows [] []
| stored_skip rows p pairs added :
    stored_rows rows pairs added -> stored_rows rows (p :: pairs) added
| stored_keep rows p pairs sub added :
    is_row_of rows p sub ->
    stored_rows (rows ++ [sub]) pairs added ->
    stored_rows rows (p :: pairs) (sub :: added).

(** The session [s] after the rows [added] were flushed. *)
Definition with_rows (s : Session F) (added : list Submission) : Session F :=
  {| committed := committed s;
     view := {| submissions := submissions (view s) ++ added;
                plagiarism_results := plagiarism_results (view s) |};
     pending := pending s |}.

(** The text of a stored row is not blank. *)
Definition has_text (sub : Submission) : Prop :=
  is_empty (strip (text_content sub)) = false.

End WithWorld.

Arguments World F FS : clear implicits.

End Upload.

(** ** A disk and a key for the examples *)

Module UploadSamples.
Import Web Models.

(** A disk as the list of the writes made, the last one first; every write
    succeeds; a text file decodes when its bytes are ASCII; there is no
    PDF reader output and no [docx] package. *)
Definition Disk : Type := list (string * string).

Fixpoint lookup (path : string) (fs : Disk) : option string :=
  match fs with
  | [] => None
  | (p, content) :: fs' => if String.eqb p path then Some content else lookup path fs'
  end.

Fixpoint all_ascii (s : string) : bool :=
  match s with
  | EmptyString => true
  | String c s' => (nat_of_ascii c <? 128) && all_ascii s'
  end.

#[export] Instance FileSystem_Disk : FileSystem Disk := {|
  path_exists := fun _ _ => true;
  makedirs := fun _ fs => (inr tt, fs);
  write_binary := fun path content fs => (inr tt, (path, content) :: fs);
  read_utf8 := fun path fs =>
    match lookup path fs with
    | Some content =>
        if all_ascii content then inr content
        else inl (OtherError "UnicodeDecodeError" "invalid start byte")
    | None => inl (OtherError "FileNotFoundError" path)
    end;
  pdf_page_texts := fun path _ => inl (OtherError "FileDataError" path);
  docx_paragraph_texts := fun _ _ => inl (ImportError "No module named 'docx'")
|}.

(** A disk of DOCX files, each given by its paragraphs; nothing else can
    be read from it. *)
Definition Docs : Type := list (string * list string).

Fixpoint paragraphs_of (path : string) (fs : Docs) : option (list string) :=
  match fs with
  | [] => None
  | (p, paragraphs) :: fs' =>
      if String.eqb p path then Some paragraphs else paragraphs_of path fs'
  end.

#[export] Instance FileSystem_Docs : FileSystem Docs := {|
  path_exists := fun _ _ => true;
  makedirs := fun _ fs => (inr tt, fs);
  write_binary := fun _ _ fs => (inr tt, fs);
  read_utf8 := fun path _ => inl (OtherError "UnicodeDecodeError" path);
  pdf_page_texts := fun path _ => inl (OtherError "FileDataError" path);
  docx_paragraph_texts := fun path fs =>
    match paragraphs_of path fs with
    | Some paragraphs => inr paragraphs
    | None => inl (OtherError "PackageNotFoundError" path)
    end
|}.

(** The key SQLite gives: one more than the largest key of the table. *)
#[export] Instance PrimaryKey_max : PrimaryKey := {|
  next_id := fun rows => (fold_right Z.max 0 (map id rows) + 1)%Z
|}.

Definition file_1 : UploadFile :=
  {| upload_filename := "test_1.txt"; content_type := "text/plain";
     body := "This is a test document about machine learning." |}.

Definition file_2 : UploadFile :=
  {| upload_filename := "../notes/blank.TXT"; content_type := "text/plain";
     body := "   " |}.

Definition file_3 : UploadFile :=
  {| upload_filename := "report.docx"; content_type := "application/octet-stream";
     body := "PK" |}.

End UploadSamples.

(** * Properties *)

(** ** Strings *)

Module StringFacts.

Lemma append_empty_r (s : string) : String.append s EmptyString = s.
Proof. induction s as [|c s IH]; simpl; [reflexivity | now rewrite IH]. Qed.

Lemma append_assoc (a b c : string) :
  String.append (String.append a b) c = String.append a (String.append b c).
Proof. induction a as [|x a IH]; simpl; [reflexivity | now rewrite IH]. Qed.

Lemma length_append (a b : string) :
  String.length (String.append a b) = String.length a + String.length b.
Proof. induction a as [|x a IH]; simpl; [reflexivity | now rewrite IH]. Qed.

Lemma substring_zero_len (a : nat) (s : string) :
  String.substring a 0 s = EmptyString.
Proof.
  revert a; induction s as [|c s IH]; intros [|a]; simpl; auto.
Qed.

Lemma length_substring (s : string) :
  forall a n, a + n <= String.length s ->
  String.length (String.substring a n s) = n.
Proof.
  induction s as [|c s IH]; intros [|a] [|n] Hle; simpl in *; try lia; auto.
  - rewrite (IH 0 n); [reflexivity | simpl; lia].
  - apply (IH a 0); lia.
  - apply (IH a (S n)); lia.
Qed.

Lemma substring_append_l (pre x : string) :
  forall a n, a + n <= String.length pre ->
  String.substring a n (String.append pre x) = String.substring a n pre.
Proof.
  induction pre as [|c pre IH]; intros [|a] [|n] Hle; simpl in *; try lia.
  - destruct x; reflexivity.
  - reflexivity.
  - f_equal. apply (IH 0 n). simpl; lia.
  - apply (IH a 0); lia.
  - apply (IH a (S n)); lia.
Qed.

Lemma substring_snoc (pre x : string) (c : ascii) :
  forall a n, a + n = String.length pre ->
  String.substring a (S n) (String.append pre (String c x))
  = String.append (String.substring a n pre) (String c EmptyString).
Proof.
  induction pre as [|d pre IH]; intros [|a] [|n] Hle; simpl in *; try lia.
  - destruct x; reflexivity.
  - f_equal. apply (IH 0 n). simpl; lia.
  - apply (IH a 0); lia.
  - apply (IH a (S n)); lia.
Qed.

End StringFacts.

(** ** The tokenizer *)

Module TokenizerFacts.
Import Text Tokenizer StringFacts.

Section Runs.
Variable cls : ascii -> bool.

(** The matches are the slices of the text at the spans. *)
Lemma scan_spans (s : string) :
  forall pre run, run <= String.length pre ->
  map (slice (String.append pre s)) (spans cls (String.length pre) run s)
  = scan cls (String.substring (String.length pre - run) run pre) s.
Proof.
  induction s as [|c s IH]; intros pre run Hrun; simpl.
  - rewrite append_empty_r. unfold emit, flush.
    rewrite length_substring by lia.
    destruct (2 <=? run); reflexivity.
  - destruct (cls c) eqn:Hc.
    + replace (String.append pre (String c s))
        with (String.append (String.append pre (String c EmptyString)) s)
        by (rewrite append_assoc; reflexivity).
      replace (S (String.length pre))
        with (String.length (String.append pre (String c EmptyString)))
        by (rewrite length_append; simpl; lia).
      rewrite IH by (rewrite length_append; simpl; lia).
      f_equal. rewrite length_append. simpl.
      replace (String.length pre + 1 - S run) with (String.length pre - run) by lia.
      apply substring_snoc. lia.
    + rewrite map_app. f_equal.
      * unfold emit, flush. rewrite length_substring by lia.
        destruct (2 <=? run); [simpl | reflexivity].
        unfold slice; simpl. f_equal. apply substring_append_l. lia.
      * replace (String.append pre (String c s))
          with (String.append (String.append pre (String c EmptyString)) s)
          by (rewrite append_assoc; reflexivity).
        replace (S (String.length pre))
          with (String.length (String.append pre (String c EmptyString)))
          by (rewrite length_append; simpl; lia).
        rewrite IH by lia.
        now rewrite substring_zero_len.
Qed.

Lemma runs2_spans (s : string) :
  runs2 cls s = map (slice s) (spans cls 0 0 s).
Proof.
  symmetry. apply (scan_spans s EmptyString 0). simpl; lia.
Qed.

(** Every span starts at or after the pending run. *)
Lemma spans_lower_bound (s : string) :
  forall i run a n, In (a, n) (spans cls i run s) -> i - run <= a.
Proof.
  induction s as [|c s IH]; intros i run a n Hin; simpl in Hin.
  - unfold emit in Hin. destruct (2 <=? run); simpl in Hin; [|tauto].
    destruct Hin as [Heq|[]]. inversion Heq; lia.
  - destruct (cls c).
    + apply IH in Hin. lia.
    + apply in_app_or in Hin. destruct Hin as [Hin|Hin].
      * unfold emit in Hin. destruct (2 <=? run); simpl in Hin; [|tauto].
        destruct Hin as [Heq|[]]. inversion Heq; lia.
      * apply IH in Hin. lia.
Qed.

(** The spans come in increasing order of their start. *)
Lemma spans_sorted (s : string) :
  forall i run, run <= i ->
  StronglySorted (fun p q : nat * nat => fst p < fst q) (spans cls i run s).
Proof.
  induction s as [|c s IH]; intros i run Hrun; simpl.
  - unfold emit. destruct (2 <=? run); repeat constructor.
  - destruct (cls c).
    + apply IH. lia.
    + unfold emit. destruct (2 <=? run); simpl; [|apply IH; lia].
      constructor; [apply IH; lia|].
      apply Forall_forall. intros [a n] Hin.
      apply spans_lower_bound in Hin. simpl. lia.
Qed.

(** A maximal run that starts at or after the pending run and before a
    position outside the class is the pending run. *)
Lemma run_is_pending (t : string) (i run a n : nat) :
  pending_ok cls t i run -> cls_at cls t i = false ->
  i - run <= a -> a < i -> is_run cls t a n ->
  a = i - run /\ n = run.
Proof.
  intros (Hle & Hin & Hleft) Hi Ha Hai (Hn & Hall & Hl & Hr).
  assert (Han : a + n <= i).
  { destruct (le_lt_dec (a + n) i) as [|Hlt]; [assumption|].
    rewrite (Hall i) in Hi by lia. discriminate. }
  assert (Ha' : a = i - run).
  { destruct (Nat.eq_dec a (i - run)) as [|Hne]; [assumption|].
    destruct Hl as [Hl|Hl]; [lia|].
    rewrite (Hin (a - 1)) in Hl by lia. discriminate. }
  split; [assumption|].
  destruct (Nat.eq_dec (a + n) i) as [|Hne]; [lia|].
  rewrite (Hin (a + n)) in Hr by lia. discriminate.
Qed.

Lemma pending_is_run (t : string) (i run : nat) :
  pending_ok cls t i run -> cls_at cls t i = false -> 0 < run ->
  is_run cls t (i - run) run.
Proof.
  intros (Hle & Hin & Hleft) Hi Hrun.
  split; [assumption|]. split; [|split].
  - intros k Hk. apply Hin. lia.
  - assumption.
  - replace (i - run + run) with i by lia. assumption.
Qed.

(** The spans are the maximal runs of two characters or more. *)
Lemma spans_spec (s : string) :
  forall t i run,
    (forall k, String.get k s = String.get (i + k) t) ->
    pending_ok cls t i run ->
    forall a n,
      In (a, n) (spans cls i run s)
      <-> (i - run <= a /\ is_run cls t a n /\ 2 <= n).
Proof.
  induction s as [|c s IH]; intros t i run Hsuf Hpend a n; simpl.
  - assert (Hend : forall m, i <= m -> cls_at cls t m = false).
    { intros m Hm. unfold cls_at.
      replace m with (i + (m - i)) by lia. rewrite <- Hsuf. reflexivity. }
    unfold emit. split.
    + destruct (2 <=? run) eqn:H2; simpl; [|tauto].
      intros [Heq|[]]. inversion Heq; subst a n.
      apply Nat.leb_le in H2.
      split; [lia|]. split; [|lia].
      apply (pending_is_run t i run Hpend (Hend i (le_n i))); lia.
    + intros (Ha & Hrun & H2).
      assert (Hai : a < i).
      { destruct (le_lt_dec i a) as [Hge|]; [|assumption].
        destruct Hrun as (Hn & Hall & _).
        pose proof (Hall a ltac:(lia)) as Hx.
        rewrite (Hend a Hge) in Hx. discriminate. }
      destruct (run_is_pending t i run a n Hpend (Hend i (le_n i)) Ha Hai Hrun)
        as [-> ->].
      apply Nat.leb_le in H2. rewrite H2. left; reflexivity.
  - assert (Hi : cls_at cls t i = cls c).
    { unfold cls_at. specialize (Hsuf 0). simpl in Hsuf.
      rewrite Nat.add_0_r in Hsuf. rewrite <- Hsuf. reflexivity. }
    assert (Hsuf' : forall k, String.get k s = String.get (S i + k) t).
    { intros k. specialize (Hsuf (S k)). simpl in Hsuf.
      replace (S i + k) with (i + S k) by lia. assumption. }
    destruct Hpend as (Hle & Hin & Hleft).
    destruct (cls c) eqn:Hc.
    + rewrite (IH t (S i) (S run) Hsuf').
      * simpl. tauto.
      * repeat split; simpl; try lia.
        -- intros k Hk. destruct (Nat.eq_dec k i) as [->|]; [assumption|].
           apply Hin. lia.
        -- assumption.
    + rewrite in_app_iff.
      rewrite (IH t (S i) 0 Hsuf').
      2:{ repeat split; try lia.
          right. replace (S i - 0 - 1) with i by lia. assumption. }
      assert (Hpend : pending_ok cls t i run) by (repeat split; assumption).
      unfold emit. split.
      * intros [Hem|(Ha & Hrun & H2)].
        -- destruct (2 <=? run) eqn:H2; simpl in Hem; [|tauto].
           destruct Hem as [Heq|[]]. inversion Heq; subst a n.
           apply Nat.leb_le in H2.
           split; [lia|]. split; [|lia].
           apply (pending_is_run t i run Hpend Hi); lia.
        -- split; [lia|]. split; assumption.
      * intros (Ha & Hrun & H2).
        destruct (le_lt_dec (S i) a) as [Hge|Hlt].
        -- right. split; [lia|]. split; assumption.
        -- left.
           assert (Hai : a < i).
           { destruct (Nat.eq_dec a i) as [->|]; [|lia].
             destruct Hrun as (Hn & Hall & _).
             rewrite (Hall i) in Hi by lia. discriminate. }
           destruct (run_is_pending t i run a n Hpend Hi Ha Hai Hrun)
             as [-> ->].
           apply Nat.leb_le in H2. rewrite H2. left; reflexivity.
Qed.

End Runs.

End TokenizerFacts.

(** ** Stripping and lowercasing do not change the terms *)

Module StripFacts.
Import Text Tokenizer.

Ltac each_char c :=
  destruct c as [[|] [|] [|] [|] [|] [|] [|] [|]]; vm_compute.

Lemma space_not_word (c : ascii) : is_space c = true -> is_word c = false.
Proof. each_char c; intros Hs; first [reflexivity | discriminate Hs]. Qed.

Lemma is_space_lower (c : ascii) : is_space (lower_char c) = is_space c.
Proof. each_char c; reflexivity. Qed.

Lemma lower_lstrip (s : string) : lower (lstrip s) = lstrip (lower s).
Proof.
  induction s as [|c s IH]; simpl; [reflexivity|].
  rewrite is_space_lower. destruct (is_space c); [assumption | reflexivity].
Qed.

Lemma lower_rstrip (s : string) : lower (rstrip s) = rstrip (lower s).
Proof.
  induction s as [|c s IH]; simpl; [reflexivity|].
  rewrite <- IH, is_space_lower.
  destruct (rstrip s); simpl; [destruct (is_space c)|]; reflexivity.
Qed.

Lemma lower_strip (s : string) : lower (strip s) = strip (lower s).
Proof. unfold strip. now rewrite lower_rstrip, lower_lstrip. Qed.

Section Runs.
Variable cls : ascii -> bool.
Hypothesis space_out : forall c, is_space c = true -> cls c = false.

Lemma scan_lstrip (s : string) :
  scan cls EmptyString (lstrip s) = scan cls EmptyString s.
Proof.
  induction s as [|c s IH]; simpl; [reflexivity|].
  destruct (is_space c) eqn:Hs; [|reflexivity].
  rewrite (space_out c Hs). simpl. assumption.
Qed.

Lemma scan_rstrip (s : string) :
  forall cur, scan cls cur (rstrip s) = scan cls cur s.
Proof.
  induction s as [|c s IH]; intros cur; simpl; [reflexivity|].
  destruct (rstrip s) as [|d r] eqn:Hr.
  - destruct (is_space c) eqn:Hs.
    + rewrite (space_out c Hs), <- IH. simpl.
      unfold flush at 2. simpl. now rewrite app_nil_r.
    + simpl. destruct (cls c); rewrite <- IH; reflexivity.
  - simpl. destruct (cls c); rewrite <- IH; reflexivity.
Qed.

Lemma runs2_strip (s : string) : runs2 cls (strip s) = runs2 cls s.
Proof. unfold runs2, strip. now rewrite scan_rstrip, scan_lstrip. Qed.

End Runs.

Lemma analyze_strip (s : string) : analyze (strip s) = analyze s.
Proof.
  unfold analyze, findall. rewrite lower_strip.
  apply runs2_strip. exact space_not_word.
Qed.

(** Two classes that agree on the characters of a text give the same runs. *)
Lemma scan_ext (cls1 cls2 : ascii -> bool) (s : string) :
  (forall k c, String.get k s = Some c -> cls1 c = cls2 c) ->
  forall cur, scan cls1 cur s = scan cls2 cur s.
Proof.
  induction s as [|c s IH]; intros Hagree cur; simpl; [reflexivity|].
  rewrite <- (Hagree 0 c eq_refl).
  assert (Hs : forall k d, String.get k s = Some d -> cls1 d = cls2 d)
    by (intros k d Hk; apply (Hagree (S k) d); exact Hk).
  destruct (cls1 c); rewrite IH by assumption; reflexivity.
Qed.

End StripFacts.

(** ** The vocabulary *)

Module VocabularyFacts.
Import Tokenizer Sklearn.

Lemma compare_lt_trans (a b c : string) :
  String.compare a b = Lt -> String.compare b c = Lt -> String.compare a c = Lt.
Proof.
  intros Hab Hbc.
  apply String_as_OT.cmp_lt. apply String_as_OT.cmp_lt in Hab, Hbc.
  exact (String_as_OT.lt_trans _ _ _ Hab Hbc).
Qed.

Lemma compare_gt_lt (a b : string) :
  String.compare a b = Gt -> String.compare b a = Lt.
Proof.
  intros H. rewrite String.compare_antisym, H. reflexivity.
Qed.

Lemma compare_lt_neq (a b : string) : String.compare a b = Lt -> a <> b.
Proof.
  intros H ->. 
  assert (E : String.compare b b = Eq) by (apply String_as_OT.cmp_eq; reflexivity).
  congruence.
Qed.

Lemma vocab_insert_in (t x : string) (l : list string) :
  In x (vocab_insert t l) <-> x = t \/ In x l.
Proof.
  induction l as [|u l IH]; simpl.
  - intuition.
  - destruct (String.compare t u) eqn:E; simpl.
    + apply String.compare_eq_iff in E. subst u. intuition.
    + intuition.
    + rewrite IH. intuition.
Qed.

Lemma vocab_insert_sorted (t : string) (l : list string) :
  StronglySorted term_lt l -> StronglySorted term_lt (vocab_insert t l).
Proof.
  induction 1 as [|u l Hl IH Hu]; simpl.
  - repeat constructor.
  - destruct (String.compare t u) eqn:E.
    + constructor; assumption.
    + constructor; [constructor; assumption|].
      constructor; [assumption|].
      eapply Forall_impl; [|exact Hu].
      intros x Hx. unfold term_lt in *. eapply compare_lt_trans; eassumption.
    + constructor; [assumption|].
      apply Forall_forall. intros x Hx.
      apply vocab_insert_in in Hx. destruct Hx as [->|Hx].
      * now apply compare_gt_lt.
      * rewrite Forall_forall in Hu. now apply Hu.
Qed.

Lemma sorted_features_in (toks : list (list string)) (x : string) :
  In x (sorted_features toks) <-> In x (List.concat toks).
Proof.
  unfold sorted_features.
  induction (List.concat toks) as [|t l IH]; simpl; [tauto|].
  rewrite vocab_insert_in, IH. intuition.
Qed.

Lemma sorted_features_sorted (toks : list (list string)) :
  StronglySorted term_lt (sorted_features toks).
Proof.
  unfold sorted_features.
  induction (List.concat toks) as [|t l IH]; simpl; [constructor|].
  now apply vocab_insert_sorted.
Qed.

Lemma sorted_NoDup (l : list string) : StronglySorted term_lt l -> NoDup l.
Proof.
  induction 1 as [|u l Hl IH Hu]; constructor; [|assumption].
  intros Hin. rewrite Forall_forall in Hu.
  apply (compare_lt_neq u u (Hu u Hin)). reflexivity.
Qed.

End VocabularyFacts.

(** ** Sums, dot products and normalization over the reals *)

Module RealFacts.
Import Numeric Sklearn.
Local Open Scope R_scope.

Lemma fold_left_Rplus (l : list R) (a : R) :
  fold_left Rplus l a = a + fold_right Rplus 0 l.
Proof.
  revert a; induction l as [|x l IH]; intros a; simpl; [lra|].
  rewrite IH. lra.
Qed.

Lemma fsum_nil : fsum (F:=R) [] = 0.
Proof. reflexivity. Qed.

Lemma fsum_cons (x : R) (l : list R) : fsum (x :: l) = x + fsum l.
Proof.
  unfold fsum; simpl. rewrite !fold_left_Rplus. lra.
Qed.

Lemma sumsq_nil : sumsq (F:=R) [] = 0.
Proof. reflexivity. Qed.

Lemma sumsq_cons (x : R) (u : list R) : sumsq (x :: u) = x * x + sumsq u.
Proof. unfold sumsq; simpl map. now rewrite fsum_cons. Qed.

Lemma dot_nil_l (v : list R) : dot (F:=R) [] v = 0.
Proof. reflexivity. Qed.

Lemma dot_nil_r (u : list R) : dot (F:=R) u [] = 0.
Proof. destruct u; reflexivity. Qed.

Lemma dot_cons (x y : R) (u v : list R) :
  dot (x :: u) (y :: v) = x * y + dot u v.
Proof. unfold dot; simpl. now rewrite fsum_cons. Qed.

Lemma ten_eps : 0 < 10 * / 2 ^ 52 < 1.
Proof.
  simpl. lra.
Qed.

Lemma sumsq_nonneg (u : list R) : 0 <= sumsq u.
Proof.
  induction u as [|x u IH]; [rewrite sumsq_nil; lra|].
  rewrite sumsq_cons. nra.
Qed.

Lemma sumsq_zero (u : list R) : sumsq u = 0 -> Forall (fun x => x = 0) u.
Proof.
  induction u as [|x u IH]; intros Hs; constructor.
  - rewrite sumsq_cons in Hs. pose proof (sumsq_nonneg u). nra.
  - apply IH. rewrite sumsq_cons in Hs. pose proof (sumsq_nonneg u). nra.
Qed.

Lemma sumsq_zeros (u : list R) : Forall (fun x => x = 0) u -> sumsq u = 0.
Proof.
  induction 1 as [|x u Hx _ IH]; [reflexivity|].
  rewrite sumsq_cons, IH, Hx. lra.
Qed.

Lemma dot_nonneg (u : list R) :
  forall v, Forall (Rle 0) u -> Forall (Rle 0) v -> 0 <= dot u v.
Proof.
  induction u as [|x u IH]; intros [|y v] Hu Hv;
    rewrite ?dot_nil_l, ?dot_nil_r; try lra.
  rewrite dot_cons. inversion Hu as [|? ? Hx Hu']; inversion Hv as [|? ? Hy Hv']; subst.
  specialize (IH v Hu' Hv'). pose proof (Rmult_le_pos x y Hx Hy). lra.
Qed.

Lemma dot_le_sumsq (u : list R) :
  forall v, 2 * dot u v <= sumsq u + sumsq v.
Proof.
  induction u as [|x u IH]; intros [|y v];
    rewrite ?dot_nil_l, ?dot_nil_r, ?sumsq_nil.
  - lra.
  - pose proof (sumsq_nonneg (y :: v)). lra.
  - pose proof (sumsq_nonneg (x :: u)). lra.
  - rewrite dot_cons, !sumsq_cons. specialize (IH v).
    pose proof (Rle_0_sqr (x - y)) as Hsq. unfold Rsqr in Hsq. lra.
Qed.

Lemma dot_map {A} (g1 g2 : A -> R) (l : list A) :
  dot (map g1 l) (map g2 l) = fsum (map (fun t => g1 t * g2 t) l).
Proof.
  induction l as [|t l IH]; [reflexivity|].
  simpl map. now rewrite dot_cons, fsum_cons, IH.
Qed.

Lemma dot_self (u : list R) : dot u u = sumsq u.
Proof.
  rewrite <- (map_id u) at 1 2. rewrite dot_map. reflexivity.
Qed.

Lemma fsum_zeros (l : list R) : Forall (fun x => x = 0) l -> fsum l = 0.
Proof.
  induction 1 as [|x l Hx _ IH]; [reflexivity|].
  rewrite fsum_cons, IH, Hx. lra.
Qed.

Lemma sumsq_map_div (n : R) (u : list R) :
  n <> 0 -> sumsq (map (fun x => x / n) u) = sumsq u / (n * n).
Proof.
  intros Hn. induction u as [|x u IH].
  - simpl map. rewrite sumsq_nil. field; assumption.
  - simpl map. rewrite !sumsq_cons, IH. field; assumption.
Qed.

Lemma feqb_R (x y : R) : feqb x y = true <-> x = y.
Proof.
  simpl. destruct (Req_dec_T x y); split; intros; congruence.
Qed.

Lemma fltb_R (x y : R) : fltb x y = true <-> x < y.
Proof.
  simpl. destruct (Rlt_dec x y); split; intros; congruence || contradiction.
Qed.

Lemma normalize_sparse_zero (w : list R) :
  sumsq w = 0 -> normalize_sparse w = w.
Proof.
  intros Hs. unfold normalize_sparse.
  destruct (feqb (sumsq w) fzero) eqn:E; [reflexivity|].
  assert (feqb (sumsq w) fzero = true) by (apply feqb_R; exact Hs). congruence.
Qed.

Lemma normalize_sparse_nonzero (w : list R) :
  sumsq w <> 0 ->
  normalize_sparse w = map (fun x => x / sqrt (sumsq w)) w.
Proof.
  intros Hs. unfold normalize_sparse.
  destruct (feqb (sumsq w) fzero) eqn:E; [|reflexivity].
  apply feqb_R in E. contradiction.
Qed.

Lemma sqrt_sumsq_pos (w : list R) : sumsq w <> 0 -> 0 < sqrt (sumsq w).
Proof.
  intros Hs. apply sqrt_lt_R0. pose proof (sumsq_nonneg w). lra.
Qed.

Lemma normalize_sparse_unit (w : list R) :
  sumsq w <> 0 -> sumsq (normalize_sparse w) = 1.
Proof.
  intros Hs. rewrite normalize_sparse_nonzero by assumption.
  pose proof (sqrt_sumsq_pos w Hs) as Hpos.
  rewrite sumsq_map_div by lra.
  rewrite sqrt_sqrt by apply sumsq_nonneg.
  field; assumption.
Qed.

Lemma map_div_one (u : list R) : map (fun x => x / 1) u = u.
Proof.
  induction u as [|x u IH]; simpl; [reflexivity|]. rewrite IH. f_equal. field.
Qed.

Lemma handle_zeros_zero : handle_zeros_in_scale (F:=R) 0 = 1.
Proof.
  unfold handle_zeros_in_scale.
  destruct (fltb 0 (fmul (fnat 10) feps)) eqn:E; [reflexivity|].
  assert (Ht : fltb 0 (fmul (fnat 10) feps) = true).
  { apply fltb_R. pose proof ten_eps as Heps. simpl in *. lra. }
  congruence.
Qed.

Lemma handle_zeros_one : handle_zeros_in_scale (F:=R) 1 = 1.
Proof.
  unfold handle_zeros_in_scale.
  destruct (fltb 1 (fmul (fnat 10) feps)); reflexivity.
Qed.

Lemma normalize_dense_fixed (y : list R) :
  sumsq y = 0 \/ sumsq y = 1 -> normalize_dense y = y.
Proof.
  intros Hs. unfold normalize_dense.
  change (fsqrt (sumsq y)) with (sqrt (sumsq y)).
  change (@fdiv R Scalar_R) with Rdiv.
  destruct Hs as [-> | ->].
  - rewrite sqrt_0, handle_zeros_zero. apply map_div_one.
  - rewrite sqrt_1, handle_zeros_one. apply map_div_one.
Qed.

Lemma normalize_twice (w : list R) :
  normalize_dense (normalize_sparse w) = normalize_sparse w.
Proof.
  apply normalize_dense_fixed.
  destruct (Req_dec_T (sumsq w) 0) as [Hz|Hnz].
  - left. now rewrite normalize_sparse_zero.
  - right. now apply normalize_sparse_unit.
Qed.

End RealFacts.

(** ** The TF-IDF rows in the words of the specification *)

Module TfidfFacts.
Import Exn Numeric Tokenizer Sklearn Spec RealFacts.
Local Open Scope R_scope.

Lemma filter_map_length {A B} (p : B -> bool) (g : A -> B) (l : list A) :
  List.length (filter p (map g l)) = List.length (filter (fun x => p (g x)) l).
Proof.
  induction l as [|x l IH]; simpl; [reflexivity|].
  destruct (p (g x)); simpl; now rewrite IH.
Qed.

Lemma map_seq_nth {A B} (g : nat -> B) (h : A -> B) (d : A) (l : list A) :
  forall k,
    (forall j, (j < List.length l)%nat -> g (k + j)%nat = h (nth j l d)) ->
    map g (seq k (List.length l)) = map h l.
Proof.
  induction l as [|x l IH]; intros k Hg; simpl; [reflexivity|].
  f_equal.
  - specialize (Hg 0%nat ltac:(simpl; lia)). simpl in Hg.
    rewrite Nat.add_0_r in Hg. exact Hg.
  - apply IH. intros j Hj.
    replace (S k + j)%nat with (k + S j)%nat by lia.
    apply (Hg (S j)). simpl; lia.
Qed.

Lemma combine_map {A B C} (g : A -> B) (h : A -> C) (l : list A) :
  combine (map g l) (map h l) = map (fun x => (g x, h x)) l.
Proof. induction l as [|x l IH]; simpl; [reflexivity | now rewrite IH]. Qed.

Lemma count_occ_contains (l : list string) (t : string) :
  negb (count_occ string_dec l t =? 0)%nat = existsb (String.eqb t) l.
Proof.
  induction l as [|x l IH]; simpl; [reflexivity|].
  destruct (string_dec x t) as [->|Hne].
  - now rewrite String.eqb_refl.
  - rewrite IH. 
    assert (E : String.eqb t x = false) by (apply String.eqb_neq; congruence).
    now rewrite E.
Qed.

Lemma nth_count_row (toks : list string) (f : list string) (j : nat) :
  (j < List.length f)%nat ->
  nth j (map (count_occ string_dec toks) f) 0%nat
  = count_occ string_dec toks (nth j f EmptyString).
Proof.
  intros Hj.
  rewrite (nth_indep _ 0%nat (count_occ string_dec toks EmptyString))
    by (rewrite length_map; exact Hj).
  apply map_nth.
Qed.

(** The document frequency read off the count matrix is the number of
    documents that contain the term. *)
Lemma document_frequency_df (group : list string) (f : list string) (j : nat) :
  (j < List.length f)%nat ->
  document_frequency
    (map (fun d => map (count_occ string_dec d) f) (map analyze group)) j
  = df (nth j f EmptyString) group.
Proof.
  intros Hj. unfold document_frequency, df.
  rewrite map_map, filter_map_length. f_equal.
  apply filter_ext. intros doc.
  rewrite nth_count_row by exact Hj.
  apply count_occ_contains.
Qed.

Lemma idf_vector_spec (group : list string) (f : list string) :
  idf_vector (F:=R)
    (map (fun d => map (count_occ string_dec d) f) (map analyze group))
    (List.length f)
  = map (fun t => idf (List.length group) (df t group)) f.
Proof.
  unfold idf_vector.
  apply (map_seq_nth _ _ EmptyString f 0%nat).
  intros j Hj. simpl Nat.add.
  rewrite document_frequency_df by exact Hj.
  rewrite !length_map. unfold idf.
  change (@fadd R Scalar_R) with Rplus. change (@flog R Scalar_R) with ln.
  change (@fdiv R Scalar_R) with Rdiv. change (@fnat R Scalar_R) with INR.
  change (@fone R Scalar_R) with 1.
  rewrite !plus_INR. simpl INR.
  f_equal. f_equal. f_equal; lra.
Qed.

Lemma scale_row_weight (group : list string) (doc : string) (f : list string) :
  scale_row (F:=R) (map (fun t => idf (List.length group) (df t group)) f)
            (map (count_occ string_dec (analyze doc)) f)
  = map (weight group doc) f.
Proof.
  unfold scale_row. rewrite combine_map, map_map. reflexivity.
Qed.

(** The rows of the TF-IDF matrix, in the words of the specification. *)
Lemma tfidf_transform_rows (group : list string) (f : list string) :
  tfidf_transform (F:=R)
    (map (fun d => map (count_occ string_dec d) f) (map analyze group))
    (List.length f)
  = map (fun doc => normalize_sparse (map (weight group doc) f)) group.
Proof.
  unfold tfidf_transform. rewrite idf_vector_spec, !map_map.
  apply map_ext. intros doc. now rewrite scale_row_weight.
Qed.

Lemma tfidf_fit_transform_rows (group : list string) :
  sorted_features (map analyze group) <> [] ->
  tfidf_fit_transform (F:=R) group
  = inr (map (fun doc =>
                normalize_sparse
                  (map (weight group doc) (sorted_features (map analyze group))))
             group).
Proof.
  intros Hne. unfold tfidf_fit_transform, count_fit_transform.
  destruct (sorted_features (map analyze group)) as [|t f] eqn:E;
    [contradiction|].
  unfold bind, ret. f_equal.
  exact (tfidf_transform_rows group (t :: f)).
Qed.

Lemma tfidf_fit_transform_empty (group : list string) :
  sorted_features (map analyze group) = [] ->
  exists e, tfidf_fit_transform (F:=R) group = inl e.
Proof.
  intros E. unfold tfidf_fit_transform, count_fit_transform. rewrite E.
  eexists; reflexivity.
Qed.

End TfidfFacts.

(** ** [run_check] *)

Module CoreFacts.
Import Exn Numeric Algorithms Core.

(** C10.  [run_check] raises [ValueError] for every algorithm name other
    than ["cosine_similarity"]; for that name, which is also the default,
    it returns what [cosine_similarity_check] returns on the two texts. *)
Theorem run_check_dispatch {F : Type} `{Scalar F} (text1 text2 algorithm : string) :
  (algorithm <> "cosine_similarity" ->
   run_check (F:=F) text1 text2 algorithm
   = inl (ValueError "Unsupported algorithm"))
  /\ run_check text1 text2 "cosine_similarity"
     = inr (cosine_similarity_check text1 text2)
  /\ run_check text1 text2 default_algorithm
     = inr (cosine_similarity_check text1 text2).
Proof.
  split; [|split; reflexivity].
  intros Hne. unfold run_check.
  destruct (String.eqb_spec algorithm "cosine_similarity") as [Heq|_];
    [contradiction | reflexivity].
Qed.

Lemma run_check_dispatch_witness :
  "levenshtein" <> "cosine_similarity"
  /\ run_check (F:=R) "one text" "another text" "levenshtein"
     = inl (ValueError "Unsupported algorithm").
Proof.
  assert (Hne : "levenshtein" <> "cosine_similarity") by discriminate.
  split; [exact Hne|].
  exact (proj1 (run_check_dispatch "one text" "another text" "levenshtein") Hne).
Defined.

End CoreFacts.

(** ** The score over the reals *)

Module SimilarityFacts.
Import Exn Numeric Text Tokenizer Sklearn Spec Algorithms.
Import StripFacts VocabularyFacts RealFacts TfidfFacts.
Local Open Scope R_scope.

Lemma df_le_length (t : string) (group : list string) :
  (df t group <= List.length group)%nat.
Proof. unfold df. apply filter_length_le. Qed.

Lemma idf_ge_1 (N d : nat) : (d <= N)%nat -> 1 <= idf N d.
Proof.
  intros Hle. unfold idf.
  assert (Hd : 0 < 1 + INR d) by (pose proof (pos_INR d); lra).
  assert (HN : 1 + INR d <= 1 + INR N) by (apply le_INR in Hle; lra).
  assert (Hx : 1 <= (1 + INR N) / (1 + INR d)).
  { apply (Rmult_le_reg_r (1 + INR d)); [assumption|].
    unfold Rdiv. rewrite Rmult_assoc, Rinv_l by lra. lra. }
  destruct (Req_dec_T ((1 + INR N) / (1 + INR d)) 1) as [->|Hne].
  - rewrite ln_1. lra.
  - assert (Hlt : 1 < (1 + INR N) / (1 + INR d)) by lra.
    pose proof (ln_increasing 1 _ ltac:(lra) Hlt) as Hln.
    rewrite ln_1 in Hln. lra.
Qed.

Lemma weight_nonneg (group : list string) (doc t : string) :
  0 <= weight group doc t.
Proof.
  unfold weight.
  pose proof (idf_ge_1 _ _ (df_le_length t group)).
  pose proof (pos_INR (tf t doc)). nra.
Qed.

Lemma weight_pos (group : list string) (doc t : string) :
  In t (analyze doc) -> 0 < weight group doc t.
Proof.
  intros Hin. unfold weight.
  pose proof (idf_ge_1 _ _ (df_le_length t group)).
  assert (Htf : 1 <= INR (tf t doc)).
  { unfold tf. apply (count_occ_In string_dec) in Hin.
    change 1 with (INR 1). apply le_INR. lia. }
  nra.
Qed.

Lemma weight_zero (group : list string) (doc t : string) :
  ~ In t (analyze doc) -> weight group doc t = 0.
Proof.
  intros Hin. unfold weight, tf.
  apply (count_occ_not_In string_dec) in Hin. rewrite Hin. simpl. lra.
Qed.

(** Normalizing a row divides it by a positive number. *)
Lemma normalize_sparse_scale (w : list R) :
  exists c, 0 < c /\ normalize_sparse w = map (fun x => x / c) w.
Proof.
  destruct (Req_dec_T (sumsq w) 0) as [Hz|Hnz].
  - exists 1. split; [lra|].
    now rewrite normalize_sparse_zero, map_div_one.
  - exists (sqrt (sumsq w)). split; [now apply sqrt_sumsq_pos|].
    now apply normalize_sparse_nonzero.
Qed.

Lemma normalize_sparse_sumsq (w : list R) :
  sumsq (normalize_sparse w) = 0 \/ sumsq (normalize_sparse w) = 1.
Proof.
  destruct (Req_dec_T (sumsq w) 0) as [Hz|Hnz].
  - left. now rewrite normalize_sparse_zero.
  - right. now apply normalize_sparse_unit.
Qed.

Lemma normalize_sparse_nonneg (w : list R) :
  Forall (Rle 0) w -> Forall (Rle 0) (normalize_sparse w).
Proof.
  intros Hw. destruct (normalize_sparse_scale w) as (c & Hc & ->).
  apply Forall_map. eapply Forall_impl; [|exact Hw].
  intros x Hx. simpl. apply Rmult_le_pos; [assumption|].
  left. now apply Rinv_0_lt_compat.
Qed.

Lemma weights_nonneg (group : list string) (doc : string) (f : list string) :
  Forall (Rle 0) (map (weight group doc) f).
Proof.
  apply Forall_map, Forall_forall. intros t _. apply weight_nonneg.
Qed.

(** The score of two texts with a non-empty vocabulary is the dot product
    of their normalized weight rows. *)
Lemma similarity_of_dot (a b : string) :
  sorted_features [analyze a; analyze b] <> [] ->
  similarity_of (F:=R) a b
  = inr (dot
           (normalize_sparse
              (map (weight [a; b] a) (sorted_features [analyze a; analyze b])))
           (normalize_sparse
              (map (weight [a; b] b) (sorted_features [analyze a; analyze b])))).
Proof.
  intros Hne. unfold similarity_of.
  rewrite (tfidf_fit_transform_rows [a; b] Hne).
  unfold bind, cosine_similarity, getitem2. simpl map.
  rewrite !normalize_twice. reflexivity.
Qed.

Lemma similarity_of_error (a b : string) :
  sorted_features [analyze a; analyze b] = [] ->
  exists e, similarity_of (F:=R) a b = inl e.
Proof.
  intros E. unfold similarity_of.
  destruct (tfidf_fit_transform_empty [a; b] E) as (e & ->).
  exists e. reflexivity.
Qed.

Lemma features_empty (a b : string) :
  sorted_features [analyze a; analyze b] = [] <->
  analyze a = [] /\ analyze b = [].
Proof.
  split.
  - intros E.
    assert (Hno : forall t, ~ In t (List.concat [analyze a; analyze b])).
    { intros t Hin. apply sorted_features_in in Hin. rewrite E in Hin.
      exact Hin. }
    simpl in Hno. rewrite app_nil_r in Hno.
    destruct (analyze a) as [|t la]; [|exfalso; apply (Hno t); left; reflexivity].
    destruct (analyze b) as [|t lb]; [|exfalso; apply (Hno t); left; reflexivity].
    split; reflexivity.
  - intros [-> ->]. reflexivity.
Qed.

Lemma is_empty_true (s : string) : is_empty s = true <-> s = EmptyString.
Proof. destruct s; simpl; split; intros; congruence. Qed.

Lemma analyze_empty_strip (s : string) : strip s = EmptyString -> analyze s = [].
Proof. intros E. rewrite <- analyze_strip, E. reflexivity. Qed.

(** The three ways the function returns: a text is empty once stripped,
    the vocabulary is empty, or a dot product is computed. *)
Lemma cosine_similarity_check_cases (a b : string) :
  cosine_similarity_check (F:=R) a b = 0
  \/ (sorted_features [analyze a; analyze b] <> []
      /\ cosine_similarity_check (F:=R) a b
         = dot
             (normalize_sparse
                (map (weight [strip a; strip b] (strip a))
                     (sorted_features [analyze a; analyze b])))
             (normalize_sparse
                (map (weight [strip a; strip b] (strip b))
                     (sorted_features [analyze a; analyze b])))).
Proof.
  unfold cosine_similarity_check.
  destruct (is_empty (strip a) || is_empty (strip b)); [left; reflexivity|].
  destruct (list_eq_dec string_dec
              (sorted_features [analyze (strip a); analyze (strip b)]) [])
    as [E|Hne].
  - left. destruct (similarity_of_error _ _ E) as (e & ->). reflexivity.
  - right. rewrite (similarity_of_dot _ _ Hne).
    rewrite !analyze_strip in *. split; [assumption | reflexivity].
Qed.

End SimilarityFacts.

(** ** Properties of the score *)

Module ScoreFacts.
Import Exn Numeric Text Tokenizer Sklearn Spec Algorithms.
Import StripFacts VocabularyFacts RealFacts TfidfFacts SimilarityFacts.
Local Open Scope R_scope.

(** When every term is missing from one of the two texts, every product
    of the dot product is zero, and so is the score. *)
Lemma score_zero_of_missing_terms (a b : string) :
  (forall t, ~ In t (analyze a) \/ ~ In t (analyze b)) ->
  cosine_similarity_check (F:=R) a b = 0.
Proof.
  intros Hmiss.
  destruct (cosine_similarity_check_cases a b) as [E|(_ & ->)]; [exact E|].
  set (f := sorted_features [analyze a; analyze b]).
  set (G := [strip a; strip b]).
  destruct (normalize_sparse_scale (map (weight G (strip a)) f)) as (ca & Hca & ->).
  destruct (normalize_sparse_scale (map (weight G (strip b)) f)) as (cb & Hcb & ->).
  rewrite !map_map, dot_map.
  apply fsum_zeros, Forall_map, Forall_forall. intros t _.
  destruct (Hmiss t) as [Ha|Hb].
  - rewrite <- (analyze_strip a) in Ha.
    rewrite (weight_zero G (strip a) t Ha). unfold Rdiv. ring.
  - rewrite <- (analyze_strip b) in Hb.
    rewrite (weight_zero G (strip b) t Hb). unfold Rdiv. ring.
Qed.

(** C1, as amended.  In exact arithmetic the score of any two texts lies
    between 0 and 1.  The function applies no clamp: in binary64, when
    neither text is empty once stripped and the library returns a score,
    that score is returned as it is. *)
Theorem cosine_similarity_check_bounded (a b : string) :
  0 <= cosine_similarity_check (F:=R) a b <= 1
  /\ (forall s : float,
        is_empty (strip a) || is_empty (strip b) = false ->
        similarity_of (F:=float) (strip a) (strip b) = inr s ->
        cosine_similarity_check (F:=float) a b = s).
Proof.
  split.
  - destruct (cosine_similarity_check_cases a b) as [->|(_ & ->)]; [lra|].
    set (f := sorted_features [analyze a; analyze b]).
    set (G := [strip a; strip b]).
    set (ya := normalize_sparse (map (weight G (strip a)) f)).
    set (yb := normalize_sparse (map (weight G (strip b)) f)).
    split.
    + apply dot_nonneg; apply normalize_sparse_nonneg, weights_nonneg.
    + pose proof (dot_le_sumsq ya yb) as Hle.
      destruct (normalize_sparse_sumsq (map (weight G (strip a)) f)) as [Ha|Ha];
        destruct (normalize_sparse_sumsq (map (weight G (strip b)) f)) as [Hb|Hb];
        fold ya in Ha; fold yb in Hb; lra.
  - intros s Hguard Hs. unfold cosine_similarity_check.
    rewrite Hguard, Hs. reflexivity.
Qed.

Lemma cosine_similarity_check_bounded_witness :
  is_empty (strip "hello world") || is_empty (strip "hello world") = false
  /\ similarity_of (F:=float) (strip "hello world") (strip "hello world")
     = inr 0x1.0000000000001p+0%float
  /\ cosine_similarity_check (F:=float) "hello world" "hello world"
     = 0x1.0000000000001p+0%float.
Proof.
  assert (Hguard : is_empty (strip "hello world")
                   || is_empty (strip "hello world") = false) by reflexivity.
  assert (Hs : similarity_of (F:=float) (strip "hello world")
                 (strip "hello world")
               = inr 0x1.0000000000001p+0%float) by (vm_compute; reflexivity).
  split; [exact Hguard|]. split; [exact Hs|].
  exact (proj2 (cosine_similarity_check_bounded "hello world" "hello world")
           _ Hguard Hs).
Defined.

(** The binary64 computation on ["hello world"] against itself, step by
    step.  Both terms are in both texts, so every idf is [ln(3/3) + 1 = 1]
    and each raw row is [[1; 1]]; its two entries are equal, so the sums
    below do not depend on the order of their terms. *)
Lemma hello_world_float64_steps :
  tfidf_fit_transform (F:=float) ["hello world"; "hello world"]
  = inr [[0x1.6a09e667f3bccp-1; 0x1.6a09e667f3bccp-1];
         [0x1.6a09e667f3bccp-1; 0x1.6a09e667f3bccp-1]]%float
  /\ sumsq [0x1.6a09e667f3bccp-1; 0x1.6a09e667f3bccp-1]%float
     = 0x1.ffffffffffffep-1%float
  /\ normalize_dense [0x1.6a09e667f3bccp-1; 0x1.6a09e667f3bccp-1]%float
     = [0x1.6a09e667f3bcdp-1; 0x1.6a09e667f3bcdp-1]%float
  /\ dot [0x1.6a09e667f3bcdp-1; 0x1.6a09e667f3bcdp-1]%float
         [0x1.6a09e667f3bcdp-1; 0x1.6a09e667f3bcdp-1]%float
     = 0x1.0000000000001p+0%float.
Proof. repeat split; vm_compute; reflexivity. Qed.

(** Rounding leaves the score of a text against itself within the
    tolerance of the identity property, here below [2^-20]. *)
Lemma hello_world_float64_tolerance :
  PrimFloat.ltb
    (PrimFloat.abs
       (PrimFloat.sub
          (cosine_similarity_check (F:=float) "hello world" "hello world") 1))
    0x1p-20
  = true.
Proof. vm_compute. reflexivity. Qed.

(** C1, the claim as stated, fails in binary64: the score of
    ["hello world"] against itself is the float above 1.0. *)
Lemma cosine_similarity_check_exceeds_one :
  cosine_similarity_check (F:=float) "hello world" "hello world"
  = 0x1.0000000000001p+0%float
  /\ PrimFloat.leb
       (cosine_similarity_check (F:=float) "hello world" "hello world") 1
     = false.
Proof. split; vm_compute; reflexivity. Qed.

(** C2, as amended.  A text with at least one term scores 1 against
    itself, in exact arithmetic. *)
Theorem cosine_similarity_check_identity (t : string) :
  analyze t <> [] ->
  cosine_similarity_check (F:=R) t t = 1.
Proof.
  intros Hne.
  destruct (analyze t) as [|tok toks] eqn:Htoks; [contradiction|].
  assert (Htok : In tok (analyze (strip t)))
    by (rewrite analyze_strip, Htoks; left; reflexivity).
  assert (Hs : strip t <> EmptyString).
  { intros E. rewrite E in Htok. exact Htok. }
  unfold cosine_similarity_check.
  destruct (is_empty (strip t)) eqn:Hemp;
    [apply is_empty_true in Hemp; contradiction|].
  simpl orb.
  assert (Hin : In tok (sorted_features [analyze (strip t); analyze (strip t)])).
  { apply sorted_features_in. simpl. apply in_or_app. left. exact Htok. }
  assert (Hf : sorted_features [analyze (strip t); analyze (strip t)] <> []).
  { intros E. rewrite E in Hin. exact Hin. }
  rewrite (similarity_of_dot _ _ Hf), dot_self.
  apply normalize_sparse_unit. intros Hz.
  apply sumsq_zero in Hz. rewrite Forall_forall in Hz.
  pose proof (weight_pos [strip t; strip t] (strip t) tok Htok) as Hpos.
  rewrite (Hz (weight [strip t; strip t] (strip t) tok)) in Hpos; [lra|].
  apply in_map. exact Hin.
Qed.

Lemma cosine_similarity_check_identity_witness :
  analyze "hello world" <> []
  /\ cosine_similarity_check (F:=R) "hello world" "hello world" = 1.
Proof.
  assert (Hne : analyze "hello world" <> []) by (vm_compute; discriminate).
  split; [exact Hne|].
  exact (cosine_similarity_check_identity "hello world" Hne).
Defined.

(** C2, the claim as stated, fails: the one-letter text ["a"] is not
    empty, and its score against itself is 0. *)
Lemma cosine_similarity_check_identity_fails :
  "a" <> EmptyString
  /\ cosine_similarity_check (F:=R) "a" "a" = 0
  /\ Rabs (cosine_similarity_check (F:=R) "a" "a" - 1) > 1 / 1000000.
Proof.
  assert (E : cosine_similarity_check (F:=R) "a" "a" = 0).
  { apply score_zero_of_missing_terms. intros t. left. vm_compute. tauto. }
  split; [discriminate|]. split; [exact E|].
  rewrite E. replace (0 - 1) with (- (1)) by ring.
  rewrite Rabs_Ropp, Rabs_R1. lra.
Qed.

(** C7.  When one of the two texts is empty, made of whitespace only, or
    has no term, the function returns 0. *)
Theorem cosine_similarity_check_no_terms (a b : string) :
  (a = EmptyString \/ strip a = EmptyString \/ analyze a = [])
  \/ (b = EmptyString \/ strip b = EmptyString \/ analyze b = []) ->
  cosine_similarity_check (F:=R) a b = 0.
Proof.
  intros H.
  assert (Hno : analyze a = [] \/ analyze b = []).
  { destruct H as [[->|[E|E]]|[->|[E|E]]];
      auto using analyze_empty_strip. }
  apply score_zero_of_missing_terms. intros t.
  destruct Hno as [E|E]; rewrite E; [left | right]; intros [].
Qed.

Lemma cosine_similarity_check_no_terms_witness :
  (("a b c" = EmptyString \/ strip "a b c" = EmptyString \/ analyze "a b c" = [])
   \/ ("machine learning" = EmptyString \/ strip "machine learning" = EmptyString
       \/ analyze "machine learning" = []))
  /\ cosine_similarity_check (F:=R) "a b c" "machine learning" = 0.
Proof.
  assert (H : ("a b c" = EmptyString \/ strip "a b c" = EmptyString
               \/ analyze "a b c" = [])
              \/ ("machine learning" = EmptyString
                  \/ strip "machine learning" = EmptyString
                  \/ analyze "machine learning" = [])).
  { left. right. right. reflexivity. }
  split; [exact H|].
  exact (cosine_similarity_check_no_terms "a b c" "machine learning" H).
Defined.

(** C8.  Two texts that share no term score exactly 0. *)
Theorem cosine_similarity_check_disjoint (a b : string) :
  (forall t, ~ (In t (analyze a) /\ In t (analyze b))) ->
  cosine_similarity_check (F:=R) a b = 0.
Proof.
  intros Hdisj. apply score_zero_of_missing_terms. intros t.
  destruct (in_dec string_dec t (analyze a)) as [Ha|Ha]; [|left; exact Ha].
  right. intros Hb. exact (Hdisj t (conj Ha Hb)).
Qed.

Lemma cosine_similarity_check_disjoint_witness :
  (forall t, ~ (In t (analyze "hello world") /\ In t (analyze "good morning")))
  /\ cosine_similarity_check (F:=R) "hello world" "good morning" = 0.
Proof.
  assert (H : forall t, ~ (In t (analyze "hello world")
                           /\ In t (analyze "good morning"))).
  { vm_compute. intros t [[<-|[<-|[]]] [H|[H|[]]]]; discriminate H. }
  split; [exact H|].
  exact (cosine_similarity_check_disjoint "hello world" "good morning" H).
Defined.

End ScoreFacts.

(** ** The [/check] handler *)

Module MainFacts.
Import Exn Numeric Text Models Algorithms Core Main.

Lemma in_index_pairs (n i j : nat) :
  In (i, j) (index_pairs n) <-> i < j < n.
Proof.
  unfold index_pairs, range. rewrite in_flat_map. split.
  - intros (i' & Hi & Hj). apply in_map_iff in Hj.
    destruct Hj as (j' & Heq & Hj). inversion Heq; subst i' j'.
    apply in_seq in Hi, Hj. lia.
  - intros Hij. exists i. split; [apply in_seq; lia|].
    apply in_map_iff. exists j. split; [reflexivity | apply in_seq; lia].
Qed.

Lemma NoDup_map_pair (i : nat) (l : list nat) :
  NoDup l -> NoDup (map (fun j => (i, j)) l).
Proof.
  induction 1 as [|j l Hj _ IH]; simpl; constructor; [|exact IH].
  rewrite in_map_iff. intros (j' & Heq & Hin). inversion Heq; subst j'.
  contradiction.
Qed.

Lemma NoDup_index_pairs (n : nat) : NoDup (index_pairs n).
Proof.
  unfold index_pairs.
  assert (Hgen : forall l, NoDup l ->
            NoDup (flat_map (fun i => map (fun j => (i, j)) (range (i + 1) n)) l)).
  { induction 1 as [|i l Hi Hl IH]; simpl; [constructor|].
    apply NoDup_app.
    - apply NoDup_map_pair, seq_NoDup.
    - exact IH.
    - intros [i' j'] Hin Hin'. apply in_map_iff in Hin.
      destruct Hin as (j0 & Heq & _). inversion Heq; subst i' j'.
      apply in_flat_map in Hin'. destruct Hin' as (i0 & Hi0 & Hj0).
      apply in_map_iff in Hj0. destruct Hj0 as (j1 & Heq1 & _).
      inversion Heq1; subst i0 j1. contradiction. }
  apply Hgen, seq_NoDup.
Qed.

Lemma length_index_pairs (n : nat) :
  List.length (index_pairs n) = n * (n - 1) / 2.
Proof.
  assert (Hgen : forall k a, a + k = n ->
            2 * List.length
                  (flat_map (fun i => map (fun j => (i, j)) (range (i + 1) n))
                            (seq a k))
            = k * (k - 1)).
  { induction k as [|k IH]; intros a Hak; [reflexivity|].
    simpl seq. simpl flat_map. rewrite length_app, length_map.
    unfold range at 1. rewrite length_seq.
    specialize (IH (S a) ltac:(lia)).
    replace (n - (a + 1)) with k by lia.
    replace (S k - 1) with k by lia.
    destruct k as [|k]; [simpl in *; lia|].
    replace (S k - 1) with k in IH by lia. nia. }
  unfold index_pairs, range at 2. rewrite Nat.sub_0_r.
  specialize (Hgen n 0 eq_refl).
  apply (Nat.div_unique_exact _ 2); lia.
Qed.

Section WithScalar.
Context {F : Type} `{Scalar F}.

Lemma with_added_nil (s : Session F) : with_added s [] = s.
Proof. destruct s; unfold with_added; simpl. now rewrite app_nil_r. Qed.

Lemma with_added_app (s : Session F) (r1 r2 : list (PlagiarismResult F)) :
  with_added (with_added s r1) r2 = with_added s (r1 ++ r2).
Proof. unfold with_added; simpl. now rewrite app_assoc. Qed.

(** One pass of the loop body adds the row of the pair. *)
Lemma compare_pair_adds (subs : list Submission) (i j : nat)
  (sub1 sub2 : Submission) (s : Session F) :
  nth_error subs i = Some sub1 -> nth_error subs j = Some sub2 ->
  compare_pair subs i j s = (inr tt, with_added s [result_of sub1 sub2]).
Proof.
  intros H1 H2. unfold compare_pair, getitem, mbind. rewrite H1, H2.
  reflexivity.
Qed.

Lemma inner_loop (subs : list Submission) (i : nat) (sub1 : Submission) :
  nth_error subs i = Some sub1 ->
  forall js (s : Session F),
    Forall (fun j => j < List.length subs) js ->
    exists rows,
      for_each js (compare_pair subs i) s = (inr tt, with_added s rows)
      /\ Forall2 (is_result_of subs) (map (fun j => (i, j)) js) rows.
Proof.
  intros Hi. induction js as [|j js IH]; intros s Hjs.
  - exists []. rewrite with_added_nil. split; constructor.
  - inversion Hjs as [|? ? Hj Hjs']; subst.
    destruct (nth_error subs j) as [sub2|] eqn:Hsub2;
      [|apply nth_error_None in Hsub2; lia].
    destruct (IH (with_added s [result_of sub1 sub2]) Hjs') as (rows & E & HF).
    exists (result_of sub1 sub2 :: rows). split.
    + simpl for_each. unfold mbind at 1.
      rewrite (compare_pair_adds subs i j sub1 sub2 s Hi Hsub2).
      rewrite E, with_added_app. reflexivity.
    + simpl map. constructor; [|exact HF].
      exists sub1, sub2. auto.
Qed.

Lemma outer_loop (subs : list Submission) :
  forall ixs (s : Session F),
    Forall (fun i => i < List.length subs) ixs ->
    exists rows,
      for_each ixs
        (fun i => for_each (range (i + 1) (List.length subs))
                           (fun j => compare_pair subs i j)) s
      = (inr tt, with_added s rows)
      /\ Forall2 (is_result_of subs)
           (flat_map (fun i => map (fun j => (i, j))
                                   (range (i + 1) (List.length subs))) ixs)
           rows.
Proof.
  induction ixs as [|i ixs IH]; intros s His.
  - exists []. rewrite with_added_nil. split; constructor.
  - inversion His as [|? ? Hi His']; subst.
    destruct (nth_error subs i) as [sub1|] eqn:Hsub1;
      [|apply nth_error_None in Hsub1; lia].
    assert (Hjs : Forall (fun j => j < List.length subs)
                         (range (i + 1) (List.length subs))).
    { apply Forall_forall. intros j Hj. apply in_seq in Hj. lia. }
    destruct (inner_loop subs i sub1 Hsub1 _ s Hjs) as (rows1 & E1 & HF1).
    destruct (IH (with_added s rows1) His') as (rows2 & E2 & HF2).
    exists (rows1 ++ rows2). split.
    + simpl for_each. unfold mbind at 1.
      change (fun j => compare_pair subs i j) with (compare_pair subs i).
      rewrite E1, E2, with_added_app. reflexivity.
    + simpl flat_map. apply Forall2_app; assumption.
Qed.

(** A request returns, keeps the submissions and leaves one row per index
    pair, whatever rows were stored before. *)
Lemma post_check_rows (d : Database F) :
  exists rows,
    post_check d
    = (inr tt, {| submissions := submissions d; plagiarism_results := rows |})
    /\ Forall2 (is_result_of (submissions d))
         (index_pairs (List.length (submissions d))) rows.
Proof.
  assert (His : Forall (fun i => i < List.length (submissions d))
                       (range 0 (List.length (submissions d)))).
  { apply Forall_forall. intros i Hi. apply in_seq in Hi. lia. }
  destruct (outer_loop (submissions d) _
              (snd (delete_results (open_session d))) His)
    as (rows & E & HF).
  exists rows. split; [|exact HF].
  unfold post_check, check_plagiarism, mbind at 1, query_submissions.
  simpl view. simpl submissions.
  unfold mbind at 1. 
  destruct (delete_results (open_session d)) as [r s1] eqn:Hdel.
  unfold delete_results in Hdel. inversion Hdel; subst r s1. clear Hdel.
  unfold mbind. simpl snd in E. rewrite E. reflexivity.
Qed.

Lemma is_result_of_functional (subs : list Submission) (p : nat * nat)
  (r1 r2 : PlagiarismResult F) :
  is_result_of subs p r1 -> is_result_of subs p r2 -> r1 = r2.
Proof.
  intros (a1 & b1 & Ha1 & Hb1 & ->) (a2 & b2 & Ha2 & Hb2 & ->). congruence.
Qed.

Lemma rows_functional (subs : list Submission) (ps : list (nat * nat)) :
  forall rows1 rows2 : list (PlagiarismResult F),
    Forall2 (is_result_of subs) ps rows1 ->
    Forall2 (is_result_of subs) ps rows2 -> rows1 = rows2.
Proof.
  induction ps as [|p ps IH]; intros rows1 rows2 H1 H2;
    inversion H1; inversion H2; subst; [reflexivity|].
  f_equal; [eapply is_result_of_functional; eassumption | now apply IH].
Qed.

Lemma Forall2_In_l {A B} (R : A -> B -> Prop) (l : list A) (l' : list B) (x : A) :
  Forall2 R l l' -> In x l -> exists y, In y l' /\ R x y.
Proof.
  induction 1 as [|a b l l' Hab _ IH]; intros Hin; [contradiction|].
  destruct Hin as [->|Hin].
  - exists b. split; [left; reflexivity | exact Hab].
  - destruct (IH Hin) as (y & Hy & HR). exists y. split; [right|]; assumption.
Qed.

Lemma Forall2_In_r {A B} (R : A -> B -> Prop) (l : list A) (l' : list B) (y : B) :
  Forall2 R l l' -> In y l' -> exists x, In x l /\ R x y.
Proof.
  induction 1 as [|a b l l' Hab _ IH]; intros Hin; [contradiction|].
  destruct Hin as [->|Hin].
  - exists a. split; [left; reflexivity | exact Hab].
  - destruct (IH Hin) as (x & Hx & HR). exists x. split; [right|]; assumption.
Qed.

(** C5.  One run over [n] stored submissions stores [n * (n - 1) / 2]
    rows: one for each pair of positions [i < j < n], each pair once and
    in the order of the loops, so the first submission of a row comes
    before the second in the list of submissions and no row pairs a
    submission with itself. *)
Theorem check_plagiarism_pairs (d : Database F) :
  exists d',
    post_check d = (inr tt, d')
    /\ List.length (plagiarism_results d')
       = List.length (submissions d) * (List.length (submissions d) - 1) / 2
    /\ NoDup (index_pairs (List.length (submissions d)))
    /\ (forall i j,
          In (i, j) (index_pairs (List.length (submissions d)))
          <-> i < j < List.length (submissions d))
    /\ Forall2 (is_result_of (submissions d))
         (index_pairs (List.length (submissions d))) (plagiarism_results d')
    /\ (forall r, In r (plagiarism_results d') ->
          exists i j sub1 sub2,
            i < j
            /\ nth_error (submissions d) i = Some sub1
            /\ nth_error (submissions d) j = Some sub2
            /\ r = result_of sub1 sub2).
Proof.
  destruct (post_check_rows d) as (rows & E & HF).
  eexists. split; [exact E|]. simpl plagiarism_results.
  split; [|split; [|split; [|split]]].
  - rewrite <- (Forall2_length HF). apply length_index_pairs.
  - apply NoDup_index_pairs.
  - intros i j. apply in_index_pairs.
  - exact HF.
  - intros r Hr.
    destruct (Forall2_In_r _ _ _ r HF Hr) as ([i j] & Hin & sub1 & sub2 & H1 & H2 & ->).
    apply in_index_pairs in Hin.
    exists i, j, sub1, sub2. simpl in H1, H2. repeat split; try assumption; lia.
Qed.

(** C9.  A run keeps the submissions, and the rows stored after it are the
    rows of this run only: the database is the one the run would leave had
    no row been stored before. *)
Theorem check_plagiarism_supersedes (d : Database F) :
  exists d',
    post_check d = (inr tt, d')
    /\ submissions d' = submissions d
    /\ Forall2 (is_result_of (submissions d))
         (index_pairs (List.length (submissions d))) (plagiarism_results d')
    /\ post_check {| submissions := submissions d; plagiarism_results := [] |}
       = (inr tt, d').
Proof.
  destruct (post_check_rows d) as (rows & E & HF).
  destruct (post_check_rows
              {| submissions := submissions d; plagiarism_results := [] |})
    as (rows0 & E0 & HF0).
  simpl submissions in E0, HF0.
  eexists. split; [exact E|]. simpl.
  split; [reflexivity|]. split; [exact HF|].
  rewrite E0. now rewrite (rows_functional _ _ _ _ HF0 HF).
Qed.

(** C4.  When the vectorization of a pair fails inside
    [cosine_similarity_check], the request still returns: the pair is
    stored with score 0 and every pair has its row. *)
Theorem check_plagiarism_failed_pair (d : Database F) (i j : nat)
  (sub1 sub2 : Submission) (e : exn) :
  i < j ->
  nth_error (submissions d) i = Some sub1 ->
  nth_error (submissions d) j = Some sub2 ->
  similarity_of (F:=F) (strip (text_content sub1)) (strip (text_content sub2))
  = inl e ->
  exists d',
    post_check d = (inr tt, d')
    /\ In {| submission1_id := id sub1; submission2_id := id sub2;
             similarity_score := fzero |} (plagiarism_results d')
    /\ Forall2 (is_result_of (submissions d))
         (index_pairs (List.length (submissions d))) (plagiarism_results d').
Proof.
  intros Hij H1 H2 Hfail.
  destruct (post_check_rows d) as (rows & E & HF).
  eexists. split; [exact E|]. simpl. split; [|exact HF].
  assert (Hj : j < List.length (submissions d))
    by (apply nth_error_Some; congruence).
  assert (Hin : In (i, j) (index_pairs (List.length (submissions d))))
    by (apply in_index_pairs; lia).
  destruct (Forall2_In_l _ _ _ (i, j) HF Hin)
    as (r & Hr & a & b & Ha & Hb & ->).
  simpl in Ha, Hb. rewrite H1 in Ha. rewrite H2 in Hb.
  inversion Ha; inversion Hb; subst a b.
  unfold result_of, cosine_similarity_check in Hr. rewrite Hfail in Hr.
  destruct (is_empty (strip (text_content sub1))
            || is_empty (strip (text_content sub2))); exact Hr.
Qed.

End WithScalar.

Lemma check_plagiarism_failed_pair_witness :
  0 < 1
  /\ nth_error (submissions Samples.three_submissions) 0 = Some Samples.sub_a
  /\ nth_error (submissions Samples.three_submissions) 1 = Some Samples.sub_b
  /\ similarity_of (F:=R) (strip (text_content Samples.sub_a))
                           (strip (text_content Samples.sub_b))
     = inl (ValueError "empty vocabulary; perhaps the documents only contain stop words")
  /\ exists d',
       post_check Samples.three_submissions = (inr tt, d')
       /\ In {| submission1_id := 1%Z; submission2_id := 2%Z;
                similarity_score := 0%R |} (plagiarism_results d')
       /\ Forall2 (is_result_of (submissions Samples.three_submissions))
            (index_pairs 3) (plagiarism_results d').
Proof.
  assert (H01 : 0 < 1) by lia.
  assert (Ha : nth_error (submissions Samples.three_submissions) 0
               = Some Samples.sub_a) by reflexivity.
  assert (Hb : nth_error (submissions Samples.three_submissions) 1
               = Some Samples.sub_b) by reflexivity.
  assert (Hfail : similarity_of (F:=R) (strip (text_content Samples.sub_a))
                                       (strip (text_content Samples.sub_b))
                  = inl (ValueError "empty vocabulary; perhaps the documents only contain stop words"))
    by reflexivity.
  repeat (split; [assumption|]).
  exact (check_plagiarism_failed_pair Samples.three_submissions 0 1
           Samples.sub_a Samples.sub_b _ H01 Ha Hb Hfail).
Defined.

End MainFacts.

(** ** The terms of a text *)

Module TermFacts.
Import Text Tokenizer StringFacts TokenizerFacts StripFacts.

Lemma get_lower (s : string) :
  forall k, String.get k (lower s) = option_map lower_char (String.get k s).
Proof.
  induction s as [|c s IH]; intros [|k]; simpl; auto.
Qed.

Lemma lower_char_underscore (c : ascii) :
  code (lower_char c) = 95 -> code c = 95.
Proof. each_char c; intros Hc; first [reflexivity | discriminate Hc]. Qed.

(** The spans of a whole text are its maximal runs of two characters or
    more, for any class of characters. *)
Lemma runs2_maximal_runs (cls : ascii -> bool) (s : string) :
  exists ps,
    runs2 cls s = map (slice s) ps
    /\ StronglySorted (fun p q : nat * nat => fst p < fst q) ps
    /\ forall a n, In (a, n) ps <-> is_run cls s a n /\ 2 <= n.
Proof.
  exists (spans cls 0 0 s). split; [apply runs2_spans|].
  split; [apply spans_sorted; lia|].
  intros a n.
  rewrite (spans_spec cls s s 0 0).
  - simpl. intuition lia.
  - intros k. reflexivity.
  - unfold pending_ok. split; [lia|]. split; [intros k Hk; lia | left; lia].
Qed.

(** The terms in the words of the specification are the maximal runs of
    alphanumeric characters. *)
Lemma spec_terms_alnum_runs (doc : string) :
  exists ps,
    spec_terms doc = map (slice (lower doc)) ps
    /\ StronglySorted (fun p q : nat * nat => fst p < fst q) ps
    /\ forall a n, In (a, n) ps <-> is_run is_alnum (lower doc) a n /\ 2 <= n.
Proof. apply runs2_maximal_runs. Qed.

(** C3, as amended.  The terms of a text are the maximal runs of word
    characters (alphanumeric characters and the underscore), two
    characters or more, of the lowercased text, from left to right; a text
    that is empty once stripped has no term; and in a text without an
    underscore they are the maximal runs of alphanumeric characters. *)
Theorem analyze_word_runs (doc : string) :
  (exists ps,
     analyze doc = map (slice (lower doc)) ps
     /\ StronglySorted (fun p q : nat * nat => fst p < fst q) ps
     /\ forall a n, In (a, n) ps <-> is_run is_word (lower doc) a n /\ 2 <= n)
  /\ (strip doc = EmptyString -> analyze doc = [])
  /\ ((forall k c, String.get k doc = Some c -> code c <> 95) ->
      analyze doc = spec_terms doc).
Proof.
  split; [apply runs2_maximal_runs|]. split.
  - intros E. rewrite <- analyze_strip, E. reflexivity.
  - intros Hno. unfold analyze, spec_terms, findall, runs2.
    apply scan_ext. intros k c Hk.
    rewrite get_lower in Hk.
    destruct (String.get k doc) as [c0|] eqn:Hc0; [|discriminate Hk].
    inversion Hk; subst c.
    unfold is_word.
    destruct (code (lower_char c0) =? 95) eqn:E; [|now rewrite orb_false_r].
    apply Nat.eqb_eq, lower_char_underscore in E.
    exfalso. exact (Hno k c0 Hc0 E).
Qed.

Lemma analyze_word_runs_witness :
  strip "  	 " = EmptyString /\ analyze "  	 " = [].
Proof.
  assert (E : strip "  	 " = EmptyString) by reflexivity.
  split; [exact E|].
  exact (proj1 (proj2 (analyze_word_runs "  	 ")) E).
Defined.

(** C3, the claim as stated, fails on a text with an underscore: the
    engine indexes one term where the alphanumeric runs are two. *)
Lemma analyze_not_alnum_runs :
  analyze "ab_cd" = ["ab_cd"]
  /\ spec_terms "ab_cd" = ["ab"; "cd"]
  /\ analyze "ab_cd" <> spec_terms "ab_cd".
Proof. repeat split; try reflexivity. vm_compute. discriminate. Qed.

End TermFacts.

(** ** The weight vectors *)

Module VectorFacts.
Import Exn Numeric Tokenizer Sklearn Spec.
Import VocabularyFacts RealFacts TfidfFacts SimilarityFacts.
Local Open Scope R_scope.

Lemma raw_weights_zero (group features : list string) (doc : string) :
  analyze doc = [] ->
  Forall (fun x => x = 0) (raw_weights group features doc).
Proof.
  intros E. unfold raw_weights. apply Forall_map, Forall_forall.
  intros t _. apply weight_zero. rewrite E. intros [].
Qed.

(** A normalized row of raw weights is a weight vector. *)
Lemma normalize_sparse_weight_vector (group features : list string) (doc : string) :
  is_weight_vector group features doc
    (normalize_sparse (raw_weights group features doc)).
Proof.
  unfold is_weight_vector, norm2.
  set (w := raw_weights group features doc).
  pose proof (sumsq_nonneg w) as Hw.
  repeat split.
  - intros Hn. apply normalize_sparse_nonzero.
    intros Hz. apply Hn. rewrite Hz. apply sqrt_0.
  - intros Hn. apply sqrt_eq_0 in Hn; [|exact Hw].
    rewrite (normalize_sparse_zero w Hn). now apply sumsq_zero.
  - intros (x & Hx & Hx0).
    destruct (Req_dec_T (sumsq w) 0) as [Hz|Hnz].
    + rewrite (normalize_sparse_zero w Hz) in Hx.
      apply sumsq_zero in Hz. rewrite Forall_forall in Hz.
      exfalso. exact (Hx0 (Hz x Hx)).
    + rewrite (normalize_sparse_unit w Hnz). apply sqrt_1.
  - intros E. pose proof (raw_weights_zero group features doc E) as Hz.
    fold w in Hz. rewrite (normalize_sparse_zero w (sumsq_zeros w Hz)).
    exact Hz.
Qed.

(** C6.  For a group of two documents, the rows [fit_transform] returns
    are the weight vectors of the two documents over the vocabulary of the
    group: the raw weight of term [t] is
    [tf(t, doc) * (ln((1 + 2) / (1 + df(t))) + 1)], the row is the raw
    weights divided by their Euclidean norm, it has norm 1 when it has a
    non-zero entry, and it is the zero vector when the document has no
    term. *)
Theorem tfidf_weight_vectors (a b : string) (rows : list (list R)) :
  tfidf_fit_transform (F:=R) [a; b] = inr rows ->
  exists features va vb,
    rows = [va; vb]
    /\ NoDup features
    /\ (forall t, In t features <-> In t (analyze a) \/ In t (analyze b))
    /\ (forall doc,
          raw_weights [a; b] features doc
          = map (fun t =>
                   INR (tf t doc) * (ln ((1 + 2) / (1 + INR (df t [a; b]))) + 1))
                features)
    /\ is_weight_vector [a; b] features a va
    /\ is_weight_vector [a; b] features b vb.
Proof.
  intros Hrows.
  destruct (list_eq_dec string_dec (sorted_features (map analyze [a; b])) [])
    as [E|Hne].
  - destruct (tfidf_fit_transform_empty [a; b] E) as (e & He).
    rewrite He in Hrows. discriminate Hrows.
  - rewrite (tfidf_fit_transform_rows [a; b] Hne) in Hrows.
    inversion Hrows as [Hr]. clear Hrows.
    exists (sorted_features (map analyze [a; b])).
    eexists. eexists. split; [reflexivity|].
    split; [apply sorted_NoDup, sorted_features_sorted|].
    split; [|split; [|split]].
    + intros t. rewrite sorted_features_in. simpl.
      rewrite app_nil_r, in_app_iff. reflexivity.
    + intros doc. unfold raw_weights. apply map_ext. intros t.
      unfold weight, idf. simpl List.length. simpl INR.
      replace (1 + (1 + 1)) with (1 + 2) by lra. reflexivity.
    + apply normalize_sparse_weight_vector.
    + apply normalize_sparse_weight_vector.
Qed.

Lemma tfidf_weight_vectors_witness :
  exists rows,
    tfidf_fit_transform (F:=R) ["hello world"; "hello there"] = inr rows
    /\ exists features va vb,
         rows = [va; vb]
         /\ NoDup features
         /\ (forall t, In t features
                       <-> In t (analyze "hello world") \/ In t (analyze "hello there"))
         /\ (forall doc,
               raw_weights ["hello world"; "hello there"] features doc
               = map (fun t =>
                        INR (tf t doc)
                        * (ln ((1 + 2)
                               / (1 + INR (df t ["hello world"; "hello there"]))) + 1))
                     features)
         /\ is_weight_vector ["hello world"; "hello there"] features "hello world" va
         /\ is_weight_vector ["hello world"; "hello there"] features "hello there" vb.
Proof.
  eexists. split; [reflexivity|].
  apply (tfidf_weight_vectors "hello world" "hello there"). reflexivity.
Defined.

End VectorFacts.

(** * Further properties *)

(** ** The score as a function of the terms *)

Module ScoreShape.
Import Exn Numeric Text Tokenizer Sklearn Spec Algorithms.
Import StripFacts VocabularyFacts RealFacts TfidfFacts SimilarityFacts.
Local Open Scope R_scope.

(** Two strictly increasing lists with the same elements are equal. *)
Lemma sorted_unique (l1 : list string) :
  forall l2,
    StronglySorted term_lt l1 -> StronglySorted term_lt l2 ->
    (forall x, In x l1 <-> In x l2) -> l1 = l2.
Proof.
  induction l1 as [|x l1 IH]; intros [|y l2] H1 H2 Hmem.
  - reflexivity.
  - exfalso. apply (proj2 (Hmem y)). left; reflexivity.
  - exfalso. apply (proj1 (Hmem x)). left; reflexivity.
  - inversion H1 as [|? ? Hs1 Hx]; inversion H2 as [|? ? Hs2 Hy]; subst.
    rewrite Forall_forall in Hx, Hy.
    assert (Hxy : x = y).
    { destruct (proj1 (Hmem x) (or_introl eq_refl)) as [E|Hin]; [now symmetry|].
      destruct (proj2 (Hmem y) (or_introl eq_refl)) as [E|Hin']; [assumption|].
      exfalso. apply (compare_lt_neq x x); [|reflexivity].
      apply (compare_lt_trans x y x); [apply Hx | apply Hy]; assumption. }
    subst y. f_equal. apply IH; try assumption.
    intros z. split; intros Hz.
    + destruct (proj1 (Hmem z) (or_intror Hz)) as [E|Hin]; [|assumption].
      subst z. exfalso. exact (compare_lt_neq x x (Hx x Hz) eq_refl).
    + destruct (proj2 (Hmem z) (or_intror Hz)) as [E|Hin]; [|assumption].
      subst z. exfalso. exact (compare_lt_neq x x (Hy x Hz) eq_refl).
Qed.

(** The vocabulary depends on the terms of the two texts only. *)
Lemma sorted_features_ext (ta tb ta' tb' : list string) :
  (forall t, In t ta \/ In t tb <-> In t ta' \/ In t tb') ->
  sorted_features [ta; tb] = sorted_features [ta'; tb'].
Proof.
  intros Hmem. apply sorted_unique; try apply sorted_features_sorted.
  intros x. rewrite !sorted_features_in. simpl.
  rewrite !app_nil_r, !in_app_iff. apply Hmem.
Qed.

Lemma dot_comm (u : list R) : forall v, dot u v = dot v u.
Proof.
  induction u as [|x u IH]; intros [|y v];
    rewrite ?dot_nil_l, ?dot_nil_r; try reflexivity.
  rewrite !dot_cons, IH. ring.
Qed.

(** The dot product of two normalized rows of weights, as a sum over the
    vocabulary. *)
Lemma dot_rows_sum (G1 G2 : list string) (d1 d2 : string) (f : list string) :
  exists c1 c2,
    0 < c1 /\ 0 < c2
    /\ dot (normalize_sparse (map (weight G1 d1) f))
           (normalize_sparse (map (weight G2 d2) f))
       = fsum (map (fun t => weight G1 d1 t / c1 * (weight G2 d2 t / c2)) f).
Proof.
  destruct (normalize_sparse_scale (map (weight G1 d1) f)) as (c1 & Hc1 & E1).
  destruct (normalize_sparse_scale (map (weight G2 d2) f)) as (c2 & Hc2 & E2).
  exists c1, c2. split; [assumption|]. split; [assumption|].
  now rewrite E1, E2, !map_map, dot_map.
Qed.

Lemma dot_rows_zero (G1 G2 : list string) (d1 d2 : string) (f : list string) :
  (forall t, ~ In t (analyze d1) \/ ~ In t (analyze d2)) ->
  dot (normalize_sparse (map (weight G1 d1) f))
      (normalize_sparse (map (weight G2 d2) f)) = 0.
Proof.
  intros Hmiss.
  destruct (dot_rows_sum G1 G2 d1 d2 f) as (c1 & c2 & _ & _ & ->).
  apply fsum_zeros, Forall_map, Forall_forall. intros t _.
  destruct (Hmiss t) as [Hm|Hm];
    rewrite (weight_zero _ _ t Hm); unfold Rdiv; ring.
Qed.

(** The score is the dot product of the normalized weight rows, also where
    the function returns early: the rows are then zero or empty. *)
Lemma score_closed_form (a b : string) :
  cosine_similarity_check (F:=R) a b
  = dot
      (normalize_sparse
         (map (weight [strip a; strip b] (strip a))
              (sorted_features [analyze a; analyze b])))
      (normalize_sparse
         (map (weight [strip a; strip b] (strip b))
              (sorted_features [analyze a; analyze b]))).
Proof.
  unfold cosine_similarity_check.
  destruct (is_empty (strip a) || is_empty (strip b)) eqn:Hguard.
  - symmetry. apply dot_rows_zero. intros t.
    apply orb_true_iff in Hguard.
    destruct Hguard as [E|E]; apply is_empty_true in E; rewrite E;
      [left | right]; intros [].
  - destruct (list_eq_dec string_dec
                (sorted_features [analyze (strip a); analyze (strip b)]) [])
      as [E|Hne].
    + destruct (similarity_of_error _ _ E) as (e & ->).
      rewrite !analyze_strip in E. rewrite E. simpl map.
      rewrite (normalize_sparse_zero []) by reflexivity. reflexivity.
    + rewrite (similarity_of_dot _ _ Hne), !analyze_strip. reflexivity.
Qed.

Lemma fsum_nonneg (l : list R) : Forall (Rle 0) l -> 0 <= fsum l.
Proof.
  induction 1 as [|x l Hx _ IH]; [rewrite fsum_nil; lra|].
  rewrite fsum_cons. lra.
Qed.

Lemma fsum_pos (l : list R) (x : R) :
  Forall (Rle 0) l -> In x l -> 0 < x -> 0 < fsum l.
Proof.
  induction 1 as [|y l Hy Hl IH]; intros Hin Hx; [destruct Hin|].
  rewrite fsum_cons. pose proof (fsum_nonneg l Hl).
  destruct Hin as [->|Hin]; [lra|]. specialize (IH Hin Hx). lra.
Qed.

(** A common term makes the score positive. *)
Lemma common_term_score_pos (a b t : string) :
  In t (analyze a) -> In t (analyze b) ->
  0 < cosine_similarity_check (F:=R) a b.
Proof.
  intros Ha Hb. rewrite score_closed_form.
  set (G := [strip a; strip b]).
  set (f := sorted_features [analyze a; analyze b]).
  destruct (dot_rows_sum G G (strip a) (strip b) f)
    as (c1 & c2 & Hc1 & Hc2 & ->).
  assert (Hdiv : forall x c, 0 <= x -> 0 < c -> 0 <= x / c).
  { intros x c Hx Hc. apply Rmult_le_pos; [assumption|].
    left. now apply Rinv_0_lt_compat. }
  apply (fsum_pos _ (weight G (strip a) t / c1 * (weight G (strip b) t / c2))).
  - apply Forall_map, Forall_forall. intros u _.
    apply Rmult_le_pos; apply Hdiv; try assumption; apply weight_nonneg.
  - apply (in_map (fun u => weight G (strip a) u / c1 * (weight G (strip b) u / c2))).
    apply sorted_features_in. simpl. apply in_or_app. left. exact Ha.
  - rewrite <- (analyze_strip a) in Ha. rewrite <- (analyze_strip b) in Hb.
    pose proof (weight_pos G (strip a) t Ha).
    pose proof (weight_pos G (strip b) t Hb).
    apply Rmult_lt_0_compat; apply Rmult_lt_0_compat; try assumption;
      now apply Rinv_0_lt_compat.
Qed.

(** The document frequency in a group of two. *)
Lemma df_pair (t a b : string) :
  df t [a; b]
  = ((if contains t a then 1 else 0) + (if contains t b then 1 else 0))%nat.
Proof.
  unfold df. simpl. destruct (contains t a), (contains t b); reflexivity.
Qed.

Lemma contains_count (t doc : string) :
  contains t doc = negb (count_occ string_dec (analyze doc) t =? 0)%nat.
Proof. unfold contains. symmetry. apply count_occ_contains. Qed.

(** The weight of a term depends on the texts through the numbers of
    occurrences of the term only. *)
Lemma weight_ext (a b a' b' d d' t : string) :
  tf t a = tf t a' -> tf t b = tf t b' -> tf t d = tf t d' ->
  weight [a; b] d t = weight [a'; b'] d' t.
Proof.
  intros Ha Hb Hd. unfold weight. rewrite !df_pair, !contains_count.
  unfold tf in *. rewrite Ha, Hb, Hd. reflexivity.
Qed.

Lemma tf_strip (t a : string) : tf t (strip a) = tf t a.
Proof. unfold tf. now rewrite analyze_strip. Qed.

(** The score depends on the two texts through the numbers of occurrences
    of their terms only. *)
Lemma score_ext (a b a' b' : string) :
  (forall t, tf t a = tf t a') -> (forall t, tf t b = tf t b') ->
  cosine_similarity_check (F:=R) a b = cosine_similarity_check (F:=R) a' b'.
Proof.
  intros Ha Hb. rewrite !score_closed_form.
  assert (Hin : forall x x' : string,
             (forall t, tf t x = tf t x') ->
             forall t, In t (analyze x) <-> In t (analyze x')).
  { intros x x' Hx t. rewrite !(count_occ_In string_dec).
    specialize (Hx t). unfold tf in Hx. rewrite Hx. reflexivity. }
  rewrite (sorted_features_ext (analyze a) (analyze b) (analyze a') (analyze b'))
    by (intros t; rewrite (Hin a a' Ha t), (Hin b b' Hb t); reflexivity).
  f_equal; f_equal; apply map_ext; intros t; apply weight_ext;
    rewrite ?tf_strip; auto.
Qed.

End ScoreShape.

(** ** Terms of a concatenation *)

Module TokenizerCompose.
Import Text Tokenizer StripFacts.

Lemma lower_append (a b : string) :
  lower (String.append a b) = String.append (lower a) (lower b).
Proof. induction a as [|c a IH]; simpl; [reflexivity | now rewrite IH]. Qed.

Lemma lower_char_keeps_non_word (c : ascii) :
  is_word c = false -> is_word (lower_char c) = false.
Proof. each_char c; intros Hc; first [reflexivity | discriminate Hc]. Qed.

(** A character outside the class ends the pending run, as the end of the
    text does. *)
Lemma scan_append_sep (cls : ascii -> bool) (sep : ascii) (s1 s2 : string) :
  cls sep = false ->
  forall cur,
    scan cls cur (String.append s1 (String sep s2))
    = scan cls cur s1 ++ scan cls EmptyString s2.
Proof.
  intros Hsep. induction s1 as [|c s1 IH]; intros cur; simpl.
  - now rewrite Hsep.
  - destruct (cls c); [apply IH|]. rewrite IH. now rewrite app_assoc.
Qed.

Lemma analyze_append_sep (a b : string) (sep : ascii) :
  is_word sep = false ->
  analyze (String.append a (String sep b)) = analyze a ++ analyze b.
Proof.
  intros Hsep. unfold analyze, findall, runs2.
  rewrite lower_append. simpl lower.
  apply scan_append_sep. now apply lower_char_keeps_non_word.
Qed.



Lemma analyze_twice (a : string) :
  analyze (String.append a (String " " a)) = analyze a ++ analyze a.
Proof.
  unfold analyze, findall, runs2.
  rewrite lower_append. simpl lower.
  apply scan_append_sep. reflexivity.
Qed.

End TokenizerCompose.

(** ** Symmetry, zero scores and the bag of terms *)

Module ScoreLaws.
Import Exn Numeric Text Tokenizer Sklearn Spec Algorithms.
Import StripFacts VocabularyFacts RealFacts TfidfFacts SimilarityFacts.
Import ScoreShape TokenizerCompose.
Local Open Scope R_scope.

Lemma weight_swap (a b d t : string) : weight [a; b] d t = weight [b; a] d t.
Proof. unfold weight. rewrite !df_pair. now rewrite Nat.add_comm. Qed.

(** X1.  Over the reals the score does not depend on the order of the two
    texts. *)
Theorem cosine_similarity_check_symmetric (a b : string) :
  cosine_similarity_check (F:=R) a b = cosine_similarity_check (F:=R) b a.
Proof.
  rewrite !score_closed_form.
  rewrite (sorted_features_ext (analyze a) (analyze b) (analyze b) (analyze a))
    by (intros t; tauto).
  rewrite dot_comm.
  f_equal; f_equal; apply map_ext; intros t; apply weight_swap.
Qed.

(** X2.  Over the reals the score is 0 exactly when the two texts have no
    term in common; a common term makes it positive. *)
Theorem cosine_similarity_check_zero_iff (a b : string) :
  (cosine_similarity_check (F:=R) a b = 0
   <-> forall t, ~ (In t (analyze a) /\ In t (analyze b)))
  /\ (forall t, In t (analyze a) -> In t (analyze b) ->
                0 < cosine_similarity_check (F:=R) a b).
Proof.
  split; [|intros t; apply common_term_score_pos].
  split.
  - intros E t [Ha Hb].
    pose proof (common_term_score_pos a b t Ha Hb). lra.
  - intros Hdisj. rewrite score_closed_form. apply dot_rows_zero.
    intros t. rewrite !analyze_strip.
    destruct (in_dec string_dec t (analyze a)) as [Ha|Ha]; [|left; exact Ha].
    right. intros Hb. exact (Hdisj t (conj Ha Hb)).
Qed.

Lemma cosine_similarity_check_zero_iff_witness :
  In "learning" (analyze "Machine learning")
  /\ In "learning" (analyze "learning by doing")
  /\ 0 < cosine_similarity_check (F:=R) "Machine learning" "learning by doing".
Proof.
  assert (Ha : In "learning" (analyze "Machine learning"))
    by (vm_compute; tauto).
  assert (Hb : In "learning" (analyze "learning by doing"))
    by (vm_compute; tauto).
  split; [exact Ha|]. split; [exact Hb|].
  exact (proj2 (cosine_similarity_check_zero_iff
                  "Machine learning" "learning by doing") "learning" Ha Hb).
Defined.

(** X3.  Over the reals the score depends on each text through its bag of
    terms only: texts whose term sequences are permutations of each other
    (a change of word order, of letter case, of punctuation or of spacing)
    get the same score. *)
Theorem cosine_similarity_check_bag (a b a' b' : string) :
  Permutation (analyze a) (analyze a') ->
  Permutation (analyze b) (analyze b') ->
  cosine_similarity_check (F:=R) a b = cosine_similarity_check (F:=R) a' b'.
Proof.
  intros Ha Hb. apply score_ext; intros t; unfold tf;
    apply (Permutation_count_occ string_dec); assumption.
Qed.

Lemma cosine_similarity_check_bag_witness :
  Permutation (analyze "hello big world") (analyze "World, BIG... hello!")
  /\ Permutation (analyze "big data") (analyze " Big  data ")
  /\ cosine_similarity_check (F:=R) "hello big world" "big data"
     = cosine_similarity_check (F:=R) "World, BIG... hello!" " Big  data ".
Proof.
  assert (Ha : Permutation (analyze "hello big world")
                           (analyze "World, BIG... hello!")).
  { vm_compute.
    apply (Permutation_trans (l' := ["hello"; "world"; "big"]));
      [apply perm_skip, perm_swap|].
    apply (Permutation_trans (l' := ["world"; "hello"; "big"]));
      [apply perm_swap|]. apply perm_skip, perm_swap. }
  assert (Hb : Permutation (analyze "big data") (analyze " Big  data "))
    by (vm_compute; apply Permutation_refl).
  split; [exact Ha|]. split; [exact Hb|].
  exact (cosine_similarity_check_bag _ _ _ _ Ha Hb).
Defined.

Lemma sumsq_map_mult (c : R) (u : list R) :
  sumsq (map (Rmult c) u) = c * c * sumsq u.
Proof.
  induction u as [|x u IH]; simpl map.
  - rewrite sumsq_nil. ring.
  - rewrite !sumsq_cons, IH. ring.
Qed.

(** Normalization undoes a positive factor. *)
Lemma normalize_sparse_scaled (c : R) (u : list R) :
  0 < c -> normalize_sparse (map (Rmult c) u) = normalize_sparse u.
Proof.
  intros Hc. pose proof (sumsq_nonneg u) as Hu.
  destruct (Req_dec_T (sumsq u) 0) as [Hz|Hnz].
  - assert (Hzeros : map (Rmult c) u = u).
    { apply sumsq_zero in Hz. rewrite Forall_forall in Hz.
      rewrite <- (map_id u) at 2. apply map_ext_in.
      intros x Hx. rewrite (Hz x Hx). ring. }
    now rewrite Hzeros.
  - assert (Hnz' : sumsq (map (Rmult c) u) <> 0).
    { rewrite sumsq_map_mult. intros E.
      apply Rmult_integral in E. destruct E as [E|E]; [|contradiction].
      apply Rmult_integral in E. destruct E; lra. }
    rewrite (normalize_sparse_nonzero _ Hnz'), (normalize_sparse_nonzero _ Hnz).
    rewrite map_map, sumsq_map_mult.
    assert (Hsqrt : sqrt (c * c * sumsq u) = c * sqrt (sumsq u)).
    { rewrite sqrt_mult by nra. rewrite sqrt_square by lra. reflexivity. }
    rewrite Hsqrt. pose proof (sqrt_sumsq_pos u Hnz).
    apply map_ext. intros x. field. split; lra.
Qed.

(** A text whose terms all occur [k] times as often as in another text
    gets the scores of that text. *)
Lemma score_scale (k : nat) (a a' b : string) :
  (0 < k)%nat ->
  (forall t, tf t a' = (k * tf t a)%nat) ->
  cosine_similarity_check (F:=R) a' b = cosine_similarity_check (F:=R) a b.
Proof.
  intros Hk Hscale. rewrite !score_closed_form.
  assert (Hin : forall t, In t (analyze a') <-> In t (analyze a)).
  { intros t. rewrite !(count_occ_In string_dec).
    specialize (Hscale t). unfold tf in Hscale. rewrite Hscale. nia. }
  rewrite (sorted_features_ext (analyze a') (analyze b) (analyze a) (analyze b))
    by (intros t; rewrite (Hin t); reflexivity).
  set (f := sorted_features [analyze a; analyze b]).
  assert (Hdf : forall t, df t [strip a'; strip b] = df t [strip a; strip b]).
  { intros t. rewrite !df_pair, !contains_count.
    fold (tf t (strip a')). fold (tf t (strip a)). rewrite !tf_strip, Hscale.
    destruct (tf t a); [rewrite Nat.mul_0_r; reflexivity|].
    destruct k; [lia|]. reflexivity. }
  assert (Ha : map (weight [strip a'; strip b] (strip a')) f
               = map (Rmult (INR k)) (map (weight [strip a; strip b] (strip a)) f)).
  { rewrite map_map. apply map_ext. intros t. unfold weight.
    rewrite Hdf, !tf_strip, Hscale, mult_INR. simpl List.length. ring. }
  assert (Hb : map (weight [strip a'; strip b] (strip b)) f
               = map (weight [strip a; strip b] (strip b)) f).
  { apply map_ext. intros t. unfold weight. now rewrite Hdf. }
  rewrite Ha, Hb, normalize_sparse_scaled; [reflexivity|].
  apply lt_0_INR. exact Hk.
Qed.

(** X4.  Over the reals, writing a text twice in a row does not change its
    score against any text. *)
Theorem cosine_similarity_check_repeated (a b : string) :
  cosine_similarity_check (F:=R) (String.append a (String " " a)) b
  = cosine_similarity_check (F:=R) a b.
Proof.
  apply (score_scale 2); [lia|].
  intros t. unfold tf. rewrite analyze_twice, count_occ_app. lia.
Qed.

End ScoreLaws.

(** ** More on the [/check] handler *)

Module CheckLaws.
Import Exn Numeric Text Models Algorithms Core Main.
Import MainFacts.

Section WithScalar.
Context {F : Type} `{Scalar F}.

(** X5.  A second run of the check over the same submissions leaves the
    database as the first run left it. *)
Theorem check_plagiarism_idempotent (d : Database F) :
  post_check (snd (post_check d)) = post_check d.
Proof.
  destruct (post_check_rows d) as (rows & E & HF).
  rewrite E. simpl snd.
  destruct (post_check_rows
              {| submissions := submissions d; plagiarism_results := rows |})
    as (rows' & E' & HF').
  simpl submissions in E', HF'.
  rewrite E'. now rewrite (rows_functional _ _ _ _ HF' HF).
Qed.

(** The keys of the rows, read off the index pairs. *)
Lemma result_ids (subs : list Submission) (ps : list (nat * nat)) :
  forall rows : list (PlagiarismResult F),
    Forall2 (is_result_of subs) ps rows ->
    map (fun r => (submission1_id r, submission2_id r)) rows
    = map (fun p => (nth (fst p) (map id subs) 0%Z,
                     nth (snd p) (map id subs) 0%Z)) ps.
Proof.
  induction 1 as [|p r ps rows (s1 & s2 & H1 & H2 & ->) _ IH]; simpl;
    [reflexivity|].
  rewrite IH. f_equal.
  assert (Hnth : forall k s, nth_error subs k = Some s ->
                             nth k (map id subs) 0%Z = id s).
  { intros k s Hk. apply nth_error_nth.
    rewrite nth_error_map, Hk. reflexivity. }
  now rewrite (Hnth _ _ H1), (Hnth _ _ H2).
Qed.

Lemma NoDup_map_in {A B} (g : A -> B) (l : list A) :
  NoDup l ->
  (forall x y, In x l -> In y l -> g x = g y -> x = y) ->
  NoDup (map g l).
Proof.
  induction 1 as [|x l Hx Hl IH]; intros Hinj; simpl; constructor.
  - rewrite in_map_iff. intros (y & Hy & Hin).
    apply Hx. rewrite (Hinj x y); auto using in_eq, in_cons.
  - apply IH. intros y z Hy Hz. apply Hinj; now right.
Qed.

(** X6.  When the stored submissions have pairwise distinct keys, no row
    of a run pairs a submission with itself, no two rows carry the same
    pair of keys, and no row carries the pair of another row reversed. *)
Theorem check_plagiarism_distinct_pairs (d : Database F) :
  NoDup (map id (submissions d)) ->
  exists d',
    post_check d = (inr tt, d')
    /\ (forall r, In r (plagiarism_results d') ->
                  submission1_id r <> submission2_id r)
    /\ NoDup (map (fun r => (submission1_id r, submission2_id r))
                  (plagiarism_results d'))
    /\ (forall r r', In r (plagiarism_results d') ->
                     In r' (plagiarism_results d') ->
                     ~ (submission1_id r = submission2_id r'
                        /\ submission2_id r = submission1_id r')).
Proof.
  intros Hnd.
  destruct (post_check_rows d) as (rows & E & HF).
  eexists. split; [exact E|]. simpl plagiarism_results.
  set (subs := submissions d) in *.
  set (ids := map id subs) in *.
  assert (Hlen : List.length ids = List.length subs)
    by (unfold ids; apply length_map).
  assert (Hinj : forall i j, i < List.length subs -> j < List.length subs ->
                             nth i ids 0%Z = nth j ids 0%Z -> i = j).
  { intros i j Hi Hj. apply (proj1 (NoDup_nth ids 0%Z) Hnd); lia. }
  assert (Hrow : forall r, In r rows ->
            exists i j, i < j < List.length subs
                        /\ submission1_id r = nth i ids 0%Z
                        /\ submission2_id r = nth j ids 0%Z).
  { intros r Hr.
    assert (Hin : In (submission1_id r, submission2_id r)
                     (map (fun r => (submission1_id r, submission2_id r)) rows))
      by (apply (in_map (fun r => (submission1_id r, submission2_id r))); exact Hr).
    rewrite (result_ids subs _ rows HF) in Hin.
    apply in_map_iff in Hin. destruct Hin as ([i j] & Heq & Hp).
    apply in_index_pairs in Hp. simpl in Heq. inversion Heq.
    exists i, j. auto. }
  split; [|split].
  - intros r Hr Heq.
    destruct (Hrow r Hr) as (i & j & Hij & E1 & E2).
    rewrite E1, E2 in Heq. apply Hinj in Heq; lia.
  - rewrite (result_ids subs _ rows HF).
    apply NoDup_map_in; [apply NoDup_index_pairs|].
    intros [i j] [i' j'] Hp Hp' Heq.
    apply in_index_pairs in Hp, Hp'. simpl in Heq. inversion Heq as [[E1 E2]].
    apply Hinj in E1; [|lia|lia]. apply Hinj in E2; [|lia|lia]. congruence.
  - intros r r' Hr Hr' [E1 E2].
    destruct (Hrow r Hr) as (i & j & Hij & A1 & A2).
    destruct (Hrow r' Hr') as (i' & j' & Hij' & B1 & B2).
    rewrite A1, B2 in E1. rewrite A2, B1 in E2.
    apply Hinj in E1; [|lia|lia]. apply Hinj in E2; [|lia|lia]. lia.
Qed.

End WithScalar.

Lemma check_plagiarism_distinct_pairs_witness :
  NoDup (map id (submissions Samples.three_submissions))
  /\ exists d',
       post_check Samples.three_submissions = (inr tt, d')
       /\ (forall r, In r (plagiarism_results d') ->
                     submission1_id r <> submission2_id r)
       /\ NoDup (map (fun r => (submission1_id r, submission2_id r))
                     (plagiarism_results d'))
       /\ (forall r r', In r (plagiarism_results d') ->
                        In r' (plagiarism_results d') ->
                        ~ (submission1_id r = submission2_id r'
                           /\ submission2_id r = submission1_id r')).
Proof.
  assert (Hnd : NoDup (map id (submissions Samples.three_submissions))).
  { simpl. repeat constructor; simpl; intuition discriminate. }
  split; [exact Hnd|].
  exact (check_plagiarism_distinct_pairs Samples.three_submissions Hnd).
Defined.

End CheckLaws.

(** ** The other handlers *)

Module EndpointFacts.
Import Exn Numeric Text Models Algorithms Core Main Endpoints.
Import MainFacts.

Section WithScalar.
Context {F : Type} `{Scalar F}.

Lemma post_check_serve (d : Database F) : post_check d = serve check_plagiarism d.
Proof. reflexivity. Qed.

(** [/clear] empties both tables whatever they held; a check run on the
    cleared database stores nothing; and the two read requests leave the
    database as it is. *)
Lemma clear_data_empties (d : Database F) :
  serve clear_data d
  = (inr tt, {| submissions := []; plagiarism_results := [] |})
  /\ post_check (snd (serve clear_data d))
     = (inr tt, {| submissions := []; plagiarism_results := [] |})
  /\ serve get_submissions (snd (serve clear_data d)) = (inr [], snd (serve clear_data d))
  /\ serve get_results (snd (serve clear_data d)) = (inr [], snd (serve clear_data d)).
Proof. repeat split. Qed.

End WithScalar.

End EndpointFacts.

(** ** Paths *)

Module PathFacts.
Import Text PosixPath StringFacts.
Local Open Scope Z_scope.

(** The result of [rfind] is at or after the last match so far, inside the
    text, and no later position holds the character. *)
Lemma rfind_from_spec (c : ascii) (s : string) :
  forall i last,
    -1 <= last < i ->
    last <= rfind_from c s i last < i + Z.of_nat (String.length s)
    /\ forall k, rfind_from c s i last < i + Z.of_nat k ->
                 String.get k s <> Some c.
Proof.
  induction s as [|d s IH]; intros i last Hlast; simpl String.length.
  - simpl. split; [lia|]. intros k _. discriminate.
  - simpl rfind_from.
    set (last' := if Ascii.eqb d c then i else last).
    assert (Hlast' : -1 <= last' < i + 1 /\ last <= last')
      by (unfold last'; destruct (Ascii.eqb d c); lia).
    destruct (IH (i + 1) last' (proj1 Hlast')) as (Hb & Hno).
    split; [lia|].
    intros [|k] Hk; simpl.
    + intros Heq. inversion Heq; subst d.
      subst last'. rewrite Ascii.eqb_refl in Hb, Hk. lia.
    + apply Hno. lia.
Qed.

Lemma rfind_spec (c : ascii) (s : string) :
  -1 <= rfind c s < Z.of_nat (String.length s)
  /\ forall k, rfind c s < Z.of_nat k -> String.get k s <> Some c.
Proof.
  destruct (rfind_from_spec c s 0 (-1) ltac:(lia)) as (Hb & Hno).
  unfold rfind. split; [lia|]. intros k Hk. apply Hno. lia.
Qed.

Local Open Scope nat_scope.

Lemma get_slice_from (n : nat) (s : string) (k : nat) :
  n <= String.length s ->
  String.get k (String.substring n (String.length s - n) s)
  = if k <? String.length s - n then String.get (k + n) s else None.
Proof.
  intros Hn. destruct (Nat.ltb_spec k (String.length s - n)).
  - apply substring_correct1. assumption.
  - apply substring_correct2. assumption.
Qed.

Lemma substring_split (s : string) :
  forall n, n <= String.length s ->
  String.append (String.substring 0 n s)
                (String.substring n (String.length s - n) s) = s.
Proof.
  induction s as [|c s IH]; intros [|n] Hn; simpl in *; try lia.
  - reflexivity.
  - f_equal. replace (String.length s) with (String.length s - 0) at 1 by lia.
    specialize (IH 0 ltac:(lia)). simpl in IH.
    rewrite substring_zero_len in IH. simpl in IH.
    rewrite Nat.sub_0_r in *. exact IH.
  - f_equal. apply IH. lia.
Qed.

(** The base name holds no slash and is the end of the path. *)
Lemma basename_spec (p : string) :
  (forall k, String.get k (basename p) <> Some "/"%char)
  /\ exists dir, p = String.append dir (basename p).
Proof.
  destruct (rfind_spec "/" p) as (Hb & Hno).
  unfold basename, slice_from.
  set (n := Z.to_nat (rfind "/" p + 1)).
  assert (Hn : n <= String.length p) by (unfold n; lia).
  split.
  - intros k. rewrite get_slice_from by exact Hn.
    destruct (k <? String.length p - n); [|discriminate].
    apply Hno. unfold n. lia.
  - exists (String.substring 0 n p). symmetry. apply substring_split. exact Hn.
Qed.

(** X8.  Whatever file name the client sends, the file is written to
    ["uploads/"] followed by a name without a slash, which is the end of
    the name sent (the name [".."] is not excluded). *)
Theorem upload_location (name : string) :
  join Upload.uploads_dir (basename name)
  = String.append "uploads/" (basename name)
  /\ (forall k, String.get k (basename name) <> Some "/"%char)
  /\ exists dir, name = String.append dir (basename name).
Proof.
  destruct (basename_spec name) as (Hno & Hdir).
  split; [|split; assumption].
  unfold join.
  assert (Hstart : startswith "/" (basename name) = false).
  { specialize (Hno 0). destruct (basename name) as [|c s]; [reflexivity|].
    simpl in *. destruct (Ascii.eqb_spec c "/"); [subst; congruence|reflexivity]. }
  rewrite Hstart. reflexivity.
Qed.

End PathFacts.

(** ** The text extractors *)

Module ParserFacts.
Import Text Tokenizer Web PosixPath PdfParser StringFacts TokenizerCompose.

Section WithFiles.
Context {FS : Type} `{FileSystem FS}.

(** X9.  [extract_text] raises only for a [.pdf], [.txt] or [.docx] path
    (in any letter case), and then with the exception of the reader of
    that format; a missing [docx] package is never an error, and a path
    with another extension never raises. *)
Theorem extract_text_raises (file_path : string) (fs : FS) (e : pyexc) :
  extract_text file_path fs = inl e ->
  (lower (snd (splitext file_path)) = ".pdf"
   /\ pdf_page_texts file_path fs = inl e)
  \/ (lower (snd (splitext file_path)) = ".txt"
      /\ read_utf8 file_path fs = inl e)
  \/ (lower (snd (splitext file_path)) = ".docx"
      /\ docx_paragraph_texts file_path fs = inl e
      /\ forall msg, e <> ImportError msg).
Proof.
  unfold extract_text.
  destruct (String.eqb_spec (lower (snd (splitext file_path))) ".pdf") as [Epdf|_].
  { intros He. left. split; [exact Epdf|].
    unfold extract_text_from_pdf in He.
    destruct (pdf_page_texts file_path fs); [congruence | discriminate]. }
  destruct (String.eqb_spec (lower (snd (splitext file_path))) ".txt") as [Etxt|_].
  { intros He. right. left. split; [exact Etxt | exact He]. }
  destruct (String.eqb_spec (lower (snd (splitext file_path))) ".docx") as [Edocx|_].
  { intros He. right. right. split; [exact Edocx|].
    unfold extract_text_from_docx in He.
    destruct (docx_paragraph_texts file_path fs) as [e0|paras]; [|discriminate].
    destruct e0; try discriminate; inversion He; subst;
      (split; [reflexivity | intros msg0 Habs; discriminate Habs]). }
  unfold extract_text_from_txt.
  destruct (read_utf8 file_path fs); discriminate.
Qed.

Lemma fold_left_append (l : list string) :
  forall acc,
    fold_left String.append l acc
    = String.append acc (fold_right String.append EmptyString l).
Proof.
  induction l as [|x l IH]; intros acc; simpl.
  - now rewrite append_empty_r.
  - now rewrite IH, append_assoc.
Qed.

Lemma docx_text_fold (paragraphs : list string) :
  fold_left (fun text para => String.append text (String.append para newline))
            paragraphs EmptyString
  = fold_right (fun para text => String.append para (String (ascii_of_nat 10) text))
               EmptyString paragraphs.
Proof.
  assert (Hgen : forall acc,
            fold_left (fun text para => String.append text (String.append para newline))
                      paragraphs acc
            = String.append acc
                (fold_right (fun para text =>
                               String.append para (String (ascii_of_nat 10) text))
                            EmptyString paragraphs)).
  { induction paragraphs as [|p ps IH]; intros acc; simpl.
    - now rewrite append_empty_r.
    - rewrite IH, !append_assoc. reflexivity. }
  apply (Hgen EmptyString).
Qed.

(** X10.  The text of a DOCX file has the terms of its paragraphs, in the
    order of the paragraphs: the line break put after each paragraph keeps
    the last word of one apart from the first word of the next. *)
Theorem docx_terms (file_path : string) (fs : FS) (paragraphs : list string) :
  docx_paragraph_texts file_path fs = inr paragraphs ->
  exists text,
    extract_text_from_docx file_path fs = inr text
    /\ analyze text = flat_map analyze paragraphs.
Proof.
  intros Hdocx. unfold extract_text_from_docx. rewrite Hdocx.
  eexists. split; [reflexivity|].
  rewrite docx_text_fold. clear Hdocx.
  induction paragraphs as [|p ps IH]; simpl; [reflexivity|].
  rewrite analyze_append_sep by reflexivity. now rewrite IH.
Qed.

End WithFiles.

Import UploadSamples.

Lemma extract_text_raises_witness :
  extract_text (FS:=Disk) "uploads/scan.PDF" []
  = inl (OtherError "FileDataError" "uploads/scan.PDF")
  /\ lower (snd (splitext "uploads/scan.PDF")) = ".pdf"
  /\ pdf_page_texts (FS:=Disk) "uploads/scan.PDF" []
     = inl (OtherError "FileDataError" "uploads/scan.PDF").
Proof.
  assert (He : extract_text (FS:=Disk) "uploads/scan.PDF" []
               = inl (OtherError "FileDataError" "uploads/scan.PDF"))
    by reflexivity.
  split; [exact He|].
  destruct (extract_text_raises "uploads/scan.PDF" [] _ He)
    as [Hpdf|[[Htxt _]|[Hdocx _]]].
  - exact Hpdf.
  - discriminate Htxt.
  - discriminate Hdocx.
Defined.

End ParserFacts.

(** ** The [/upload] handler *)

Module UploadFacts.
Import Exn Numeric Text Web PosixPath PdfParser Models Main Upload.
Import PathFacts.

Section WithWorld.
Context {F : Type} {FS : Type} `{FileSystem FS} `{PrimaryKey}.

Lemma with_rows_nil (s : Session F) : with_rows s [] = s.
Proof.
  destruct s as [c [subs res] p]. unfold with_rows. simpl.
  now rewrite app_nil_r.
Qed.

Lemma with_rows_app (s : Session F) (l1 l2 : list Submission) :
  with_rows (with_rows s l1) l2 = with_rows s (l1 ++ l2).
Proof. unfold with_rows. simpl. now rewrite app_assoc. Qed.

Lemma stored_rows_none (pairs : list (UploadFile * string)) :
  forall rows, stored_rows rows pairs [].
Proof. induction pairs; intros rows; constructor; auto. Qed.

(** One pass of the loop: the write fails, or the file is skipped, or its
    row is stored. *)
Lemma upload_one_spec (file : UploadFile) (student_id : string) (saved : nat)
  (w : World F FS) :
  exists fs',
    (exists e,
       upload_one file student_id saved w
       = (inl e, {| session := session w; disk := fs' |}))
    \/ upload_one file student_id saved w
       = (inr saved, {| session := session w; disk := fs' |})
    \/ (exists sub,
          is_row_of (submissions (view (session w))) (file, student_id) sub
          /\ upload_one file student_id saved w
             = (inr (saved + 1),
                {| session := with_rows (session w) [sub]; disk := fs' |})).
Proof.
  unfold upload_one, wbind, wtry, on_disk, from_disk, wret.
  destruct (write_binary _ (body file) (disk w)) as [[e|[]] fs'];
    exists fs'; simpl.
  - left. exists e. reflexivity.
  - destruct (extract_text _ fs') as [e|text].
    + right. left. reflexivity.
    + destruct (is_empty (strip text)) eqn:Hblank; simpl.
      * right. left. reflexivity.
      * right. right. eexists. split; [|reflexivity].
        unfold is_row_of. simpl. auto.
Qed.

(** The loop stores rows for some of the uploads, in their order, and
    counts them. *)
Lemma upload_loop_spec (pairs : list (UploadFile * string)) :
  forall saved (w : World F FS),
  exists added fs' r,
    upload_loop pairs saved w
    = (r, {| session := with_rows (session w) added; disk := fs' |})
    /\ stored_rows (submissions (view (session w))) pairs added
    /\ forall k, r = inr k -> k = saved + List.length added.
Proof.
  induction pairs as [|[file sid] rest IH]; intros saved w.
  - exists [], (disk w), (inr saved). rewrite with_rows_nil.
    destruct w. split; [reflexivity|]. split; [constructor|].
    intros k Hk. inversion Hk. simpl. lia.
  - simpl upload_loop. unfold wbind at 1.
    destruct (upload_one_spec file sid saved w)
      as (fs1 & [(e & ->)|[->|(sub & Hrow & ->)]]).
    + exists [], fs1, (inl e). rewrite with_rows_nil.
      split; [reflexivity|]. split; [apply stored_rows_none|].
      intros k Hk. discriminate Hk.
    + destruct (IH saved {| session := session w; disk := fs1 |})
        as (added & fs' & r & -> & Hst & Hk).
      exists added, fs', r. simpl session in *.
      split; [reflexivity|]. split; [now constructor|]. exact Hk.
    + destruct (IH (saved + 1)
                   {| session := with_rows (session w) [sub]; disk := fs1 |})
        as (added & fs' & r & -> & Hst & Hk).
      exists (sub :: added), fs', r. simpl session in *.
      rewrite with_rows_app. simpl app.
      split; [reflexivity|]. split; [now constructor|].
      intros k Hr. rewrite (Hk k Hr). simpl. lia.
Qed.

(** A request either raises and leaves the database as it was, or returns
    and adds rows for some of the uploads. *)
Lemma post_upload_spec (d : Database F) (fs : FS)
  (files : list UploadFile) (student_ids : list string) :
  (exists e fs', post_upload d fs files student_ids = (inl e, d, fs'))
  \/ (exists added fs',
        post_upload d fs files student_ids
        = (inr (upload_message (List.length added)),
           {| submissions := submissions d ++ added;
              plagiarism_results := plagiarism_results d |},
           fs')
        /\ List.length files = List.length student_ids
        /\ stored_rows (submissions d) (combine files student_ids) added).
Proof.
  remember (post_upload d fs files student_ids) as res eqn:Hres.
  unfold post_upload, upload_pdfs in Hres.
  destruct (List.length files =? List.length student_ids) eqn:Hlen.
  2:{ left. subst res. eexists. exists fs. reflexivity. }
  change (negb true) with false in Hres. cbv beta iota in Hres.
  apply Nat.eqb_eq in Hlen.
  assert (Hloop : forall fs0 r w,
    wbind (upload_loop (combine files student_ids) 0)
          (fun saved_count =>
             wbind wcommit (fun _ => wret (upload_message saved_count)))
          {| session := open_session d; disk := fs0 |} = (r, w) ->
    (exists e, r = inl e /\ committed (session w) = d)
    \/ (exists added,
          r = inr (upload_message (List.length added))
          /\ committed (session w)
             = {| submissions := submissions d ++ added;
                  plagiarism_results := plagiarism_results d |}
          /\ stored_rows (submissions d) (combine files student_ids) added)).
  { intros fs0 r w. unfold wbind at 1.
    destruct (upload_loop_spec (combine files student_ids) 0
                {| session := open_session d; disk := fs0 |})
      as (added & fs' & r0 & -> & Hst & Hk).
    simpl session in *. simpl in Hst.
    destruct r0 as [e|k].
    - intros Heq. inversion Heq; subst. left. exists e. split; reflexivity.
    - unfold wbind, wcommit, wret, commit. simpl.
      intros Heq. inversion Heq; subst. right. exists added.
      rewrite (Hk k eq_refl). simpl Nat.add. rewrite app_nil_r. auto. }
  unfold wbind at 1, ensure_uploads_dir in Hres. simpl disk in Hres.
  assert (Hfinish : forall fs0,
    res = (let '(r, w) :=
             wbind (upload_loop (combine files student_ids) 0)
                   (fun saved_count =>
                      wbind wcommit (fun _ => wret (upload_message saved_count)))
                   {| session := open_session d; disk := fs0 |} in
           (r, committed (session w), disk w)) ->
    (exists e fs', res = (inl e, d, fs'))
    \/ (exists added fs',
          res = (inr (upload_message (List.length added)),
                 {| submissions := submissions d ++ added;
                    plagiarism_results := plagiarism_results d |}, fs')
          /\ List.length files = List.length student_ids
          /\ stored_rows (submissions d) (combine files student_ids) added)).
  { intros fs0 Heq.
    destruct (wbind _ _ _) as [r w] eqn:Hrun in Heq.
    destruct (Hloop fs0 r w Hrun) as [(e & -> & Hc)|(added & -> & Hc & Hst)].
    - left. exists e, (disk w). now rewrite Heq, Hc.
    - right. exists added, (disk w). rewrite Heq, Hc. auto. }
  destruct (path_exists uploads_dir fs).
  - apply (Hfinish fs). exact Hres.
  - unfold on_disk in Hres. simpl disk in Hres.
    destruct (makedirs uploads_dir fs) as [[e|[]] fs1].
    + left. subst res. exists e, fs1. reflexivity.
    + apply (Hfinish fs1). exact Hres.
Qed.

(** The rows stored have a text that is not blank. *)
Lemma stored_rows_have_text (rows : list Submission)
  (pairs : list (UploadFile * string)) (added : list Submission) :
  stored_rows rows pairs added -> Forall has_text added.
Proof.
  induction 1 as [| |rows p pairs sub added (_ & _ & _ & Htext) _ IH];
    try assumption; constructor; assumption.
Qed.

Lemma stored_rows_length (rows : list Submission)
  (pairs : list (UploadFile * string)) (added : list Submission) :
  stored_rows rows pairs added -> List.length added <= List.length pairs.
Proof. induction 1; simpl; lia. Qed.

(** Each row stored comes from one of the uploads. *)
Lemma stored_rows_from (rows : list Submission)
  (pairs : list (UploadFile * string)) (added : list Submission) :
  stored_rows rows pairs added ->
  Forall (fun sub =>
            exists file sid,
              In (file, sid) pairs
              /\ student_id sub = sid
              /\ filename sub = basename (upload_filename file)) added.
Proof.
  induction 1 as [| rows p pairs added _ IH
                  | rows [file sid] pairs sub added (_ & Hs & Hf & _) _ IH].
  - constructor.
  - eapply Forall_impl; [|exact IH].
    intros sub (file & sid & Hin & Hrest). exists file, sid. split; [now right|assumption].
  - constructor.
    + exists file, sid. split; [now left|]. auto.
    + eapply Forall_impl; [|exact IH].
      intros s (f0 & sid0 & Hin & Hrest). exists f0, sid0.
      split; [now right|assumption].
Qed.

(** Keys given one after the other stay distinct. *)
Lemma stored_rows_keys (rows : list Submission)
  (pairs : list (UploadFile * string)) (added : list Submission) :
  (forall l, ~ In (next_id l) (map id l)) ->
  stored_rows rows pairs added ->
  NoDup (map id rows) -> NoDup (map id (rows ++ added)).
Proof.
  intros Hfresh. induction 1 as [| |rows p pairs sub added (Hid & _) _ IH];
    intros Hnd.
  - now rewrite app_nil_r.
  - auto.
  - replace (rows ++ sub :: added) with ((rows ++ [sub]) ++ added)
      by (rewrite <- app_assoc; reflexivity).
    apply IH. rewrite map_app. simpl.
    apply NoDup_app; [assumption | repeat constructor; intros [] |].
    intros x Hx [<-|[]]. rewrite Hid in Hx. exact (Hfresh rows Hx).
Qed.

(** X11.  When the numbers of files and of student ids differ, the request
    is refused with status 400: nothing is written to the disk and the
    database is left as it was. *)
Theorem upload_pdfs_mismatch (d : Database F) (fs : FS)
  (files : list UploadFile) (student_ids : list string) :
  List.length files <> List.length student_ids ->
  post_upload d fs files student_ids
  = (inl (HTTPException 400
            (mismatch_detail (List.length files) (List.length student_ids))),
     d, fs).
Proof.
  intros Hne. unfold post_upload, upload_pdfs.
  apply Nat.eqb_neq in Hne. rewrite Hne. reflexivity.
Qed.

(** X12.  An upload request is all or nothing for the database.  Either it
    raises, and the database is as before; or it returns, and then the
    results are untouched, the earlier submissions are kept in place, and
    the new rows follow them: one row for some of the uploads, in the order
    of the uploads, each with the student id paired with its file, the
    base name of the file name and a text that is not blank.  The message
    counts the new rows. *)
Theorem upload_pdfs_all_or_nothing (d : Database F) (fs : FS)
  (files : list UploadFile) (student_ids : list string) :
  (exists e fs', post_upload d fs files student_ids = (inl e, d, fs'))
  \/ (exists added fs',
        post_upload d fs files student_ids
        = (inr (upload_message (List.length added)),
           {| submissions := submissions d ++ added;
              plagiarism_results := plagiarism_results d |},
           fs')
        /\ stored_rows (submissions d) (combine files student_ids) added
        /\ List.length added <= List.length files
        /\ Forall (fun sub =>
                     exists file sid,
                       In (file, sid) (combine files student_ids)
                       /\ student_id sub = sid
                       /\ filename sub = basename (upload_filename file)
                       /\ has_text sub) added).
Proof.
  destruct (post_upload_spec d fs files student_ids)
    as [Hfail|(added & fs' & E & Hlen & Hst)]; [left; exact Hfail|].
  right. exists added, fs'. split; [exact E|]. split; [exact Hst|]. split.
  - pose proof (stored_rows_length _ _ _ Hst) as Hle.
    rewrite length_combine in Hle. lia.
  - pose proof (stored_rows_from _ _ _ Hst) as Hfrom.
    pose proof (stored_rows_have_text _ _ _ Hst) as Htext.
    rewrite Forall_forall in *. intros sub Hsub.
    destruct (Hfrom sub Hsub) as (file & sid & Hin & Hs & Hf).
    exists file, sid. auto.
Qed.



(** X14.  An upload keeps the database free of blank texts: when no stored
    submission has a blank text before the request, none has after it,
    whether the request returns or raises. *)
Theorem upload_pdfs_keeps_texts (d : Database F) (fs : FS)
  (files : list UploadFile) (student_ids : list string) :
  Forall has_text (submissions d) ->
  Forall has_text
    (submissions (snd (fst (post_upload d fs files student_ids)))).
Proof.
  intros Hd.
  destruct (post_upload_spec d fs files student_ids)
    as [(e & fs' & ->)|(added & fs' & -> & _ & Hst)]; simpl; [exact Hd|].
  apply Forall_app. split; [exact Hd|].
  exact (stored_rows_have_text _ _ _ Hst).
Qed.

(** X15.  When the database never gives a key the table already holds, an
    upload keeps the keys of the submissions pairwise distinct. *)
Theorem upload_pdfs_keeps_keys (d : Database F) (fs : FS)
  (files : list UploadFile) (student_ids : list string) :
  (forall rows, ~ In (next_id rows) (map id rows)) ->
  NoDup (map id (submissions d)) ->
  NoDup (map id (submissions (snd (fst (post_upload d fs files student_ids))))).
Proof.
  intros Hfresh Hd.
  destruct (post_upload_spec d fs files student_ids)
    as [(e & fs' & ->)|(added & fs' & -> & _ & Hst)]; simpl; [exact Hd|].
  exact (stored_rows_keys _ _ _ Hfresh Hst Hd).
Qed.

End WithWorld.

End UploadFacts.

(** ** The handlers, one after the other *)

Module ScenarioFacts.
Import Exn Numeric Text Web PosixPath PdfParser Models Main Endpoints Upload.
Import MainFacts UploadFacts UploadSamples.

Section WithWorld.
Context {F : Type} `{Scalar F} {FS : Type} `{FileSystem FS} `{PrimaryKey}.

(** X16.  Clear, upload, check: when the upload that follows a clear
    returns with the message for [k] files, [k] is at most the number of
    files sent, the database holds [k] submissions, all with a text that
    is not blank, and the check that follows returns and stores
    [k * (k - 1) / 2] results. *)
Theorem clear_upload_check (d : Database F) (fs fs1 : FS)
  (files : list UploadFile) (student_ids : list string)
  (msg : string) (d1 : Database F) :
  post_upload (snd (serve clear_data d)) fs files student_ids
  = (inr msg, d1, fs1) ->
  exists k,
    msg = upload_message k
    /\ k <= List.length files
    /\ List.length (submissions d1) = k
    /\ Forall has_text (submissions d1)
    /\ exists d2,
         post_check d1 = (inr tt, d2)
         /\ submissions d2 = submissions d1
         /\ List.length (plagiarism_results d2) = k * (k - 1) / 2.
Proof.
  intros Hup.
  change (snd (serve clear_data d))
    with {| submissions := []; plagiarism_results := @nil (PlagiarismResult F) |}
    in Hup.
  destruct (post_upload_spec
              {| submissions := []; plagiarism_results := @nil (PlagiarismResult F) |}
              fs files student_ids)
    as [(e & fs' & E)|(added & fs' & E & Hlen & Hst)];
    rewrite E in Hup; [discriminate Hup|].
  inversion Hup; subst msg d1 fs1. clear Hup. simpl in Hst.
  exists (List.length added).
  split; [reflexivity|]. split.
  { pose proof (stored_rows_length _ _ _ Hst) as Hle.
    rewrite length_combine in Hle. lia. }
  split; [reflexivity|]. split; [exact (stored_rows_have_text _ _ _ Hst)|].
  destruct (post_check_rows
              {| submissions := added; plagiarism_results := @nil (PlagiarismResult F) |})
    as (rows & Echeck & HF).
  simpl app. eexists. split; [exact Echeck|]. split; [reflexivity|].
  simpl. rewrite <- (Forall2_length HF). apply length_index_pairs.
Qed.

End WithWorld.

(** The largest key of a table is not below any of its keys. *)
Lemma max_key_bound (rows : list Submission) (x : Z) :
  In x (map id rows) -> (x <= fold_right Z.max 0 (map id rows))%Z.
Proof.
  induction rows as [|r rows IH]; simpl; [intros []|].
  intros [<-|Hin]; [lia|]. specialize (IH Hin). lia.
Qed.

Lemma max_key_fresh (rows : list Submission) :
  ~ In (next_id rows) (map id rows).
Proof.
  intros Hin. apply max_key_bound in Hin. simpl in Hin. lia.
Qed.

Lemma upload_pdfs_mismatch_witness :
  List.length [file_1; file_2; file_3] <> List.length ["Student_A"; "Student_B"]
  /\ post_upload Samples.three_submissions ([] : Disk)
       [file_1; file_2; file_3] ["Student_A"; "Student_B"]
     = (inl (HTTPException 400
               "The number of files (3) and student IDs (2) must be the same."),
        Samples.three_submissions, []).
Proof.
  assert (Hne : List.length [file_1; file_2; file_3]
                <> List.length ["Student_A"; "Student_B"])
    by (simpl; lia).
  split; [exact Hne|].
  exact (upload_pdfs_mismatch Samples.three_submissions ([] : Disk)
           [file_1; file_2; file_3] ["Student_A"; "Student_B"] Hne).
Defined.


Lemma upload_pdfs_keeps_texts_witness :
  Forall has_text (submissions Samples.three_submissions)
  /\ Forall has_text
       (submissions
          (snd (fst (post_upload Samples.three_submissions ([] : Disk)
                       [file_1; file_2; file_3]
                       ["Student_A"; "Student_B"; "Student_C"])))).
Proof.
  assert (Hd : Forall has_text (submissions Samples.three_submissions))
    by (repeat constructor).
  split; [exact Hd|].
  exact (upload_pdfs_keeps_texts Samples.three_submissions ([] : Disk)
           [file_1; file_2; file_3] ["Student_A"; "Student_B"; "Student_C"] Hd).
Defined.

Lemma upload_pdfs_keeps_keys_witness :
  (forall rows, ~ In (next_id rows) (map id rows))
  /\ NoDup (map id (submissions Samples.three_submissions))
  /\ NoDup
       (map id
          (submissions
             (snd (fst (post_upload Samples.three_submissions ([] : Disk)
                          [file_1; file_2; file_3]
                          ["Student_A"; "Student_B"; "Student_C"]))))).
Proof.
  assert (Hd : NoDup (map id (submissions Samples.three_submissions))).
  { simpl. repeat constructor; simpl; intuition discriminate. }
  split; [exact max_key_fresh|]. split; [exact Hd|].
  exact (upload_pdfs_keeps_keys Samples.three_submissions ([] : Disk)
           [file_1; file_2; file_3] ["Student_A"; "Student_B"; "Student_C"]
           max_key_fresh Hd).
Defined.

Lemma clear_upload_check_witness :
  post_upload (snd (serve clear_data Samples.three_submissions)) ([] : Disk)
    [file_1; file_2; file_3] ["Student_A"; "Student_B"; "Student_C"]
  = (inr "1 files uploaded successfully.",
     {| submissions :=
          [{| id := 1; student_id := "Student_A"; filename := "test_1.txt";
              text_content := "This is a test document about machine learning." |}];
        plagiarism_results := [] |},
     [("uploads/report.docx", "PK"); ("uploads/blank.TXT", "   ");
      ("uploads/test_1.txt", "This is a test document about machine learning.")])
  /\ exists k,
       "1 files uploaded successfully." = upload_message k
       /\ k <= 3
       /\ exists d2,
            post_check
              {| submissions :=
                   [{| id := 1; student_id := "Student_A"; filename := "test_1.txt";
                       text_content :=
                         "This is a test document about machine learning." |}];
                 plagiarism_results := @nil (PlagiarismResult R) |}
            = (inr tt, d2)
            /\ List.length (plagiarism_results d2) = k * (k - 1) / 2.
Proof.
  assert (Hup :
    post_upload (snd (serve clear_data Samples.three_submissions)) ([] : Disk)
      [file_1; file_2; file_3] ["Student_A"; "Student_B"; "Student_C"]
    = (inr "1 files uploaded successfully.",
       {| submissions :=
            [{| id := 1; student_id := "Student_A"; filename := "test_1.txt";
                text_content := "This is a test document about machine learning." |}];
          plagiarism_results := [] |},
       [("uploads/report.docx", "PK"); ("uploads/blank.TXT", "   ");
        ("uploads/test_1.txt", "This is a test document about machine learning.")]))
    by reflexivity.
  split; [exact Hup|].
  destruct (clear_upload_check _ _ _ _ _ _ _ Hup)
    as (k & Hmsg & Hk & _ & _ & d2 & Hcheck & _ & Hlen).
  exists k. split; [exact Hmsg|]. split; [exact Hk|].
  exists d2. split; [exact Hcheck | exact Hlen].
Defined.

End ScenarioFacts.

(** The terms of a DOCX file with two paragraphs. *)
Module ParserSamples.
Import Text Tokenizer Web PdfParser ParserFacts UploadSamples.

Lemma docx_terms_witness :
  docx_paragraph_texts (FS:=Docs) "uploads/essay.docx"
    [("uploads/essay.docx", ["Machine learning"; "is a subset of AI"])]
  = inr ["Machine learning"; "is a subset of AI"]
  /\ exists text,
       extract_text_from_docx (FS:=Docs) "uploads/essay.docx"
         [("uploads/essay.docx", ["Machine learning"; "is a subset of AI"])]
       = inr text
       /\ analyze text
          = flat_map analyze ["Machine learning"; "is a subset of AI"].
Proof.
  assert (Hd : docx_paragraph_texts (FS:=Docs) "uploads/essay.docx"
                 [("uploads/essay.docx", ["Machine learning"; "is a subset of AI"])]
               = inr ["Machine learning"; "is a subset of AI"]) by reflexivity.
  split; [exact Hd|].
  exact (docx_terms (FS:=Docs) "uploads/essay.docx" _ _ Hd).
Defined.

End ParserSamples.
